(** * Package validation of the tour and transfer forms

    A shallow embedding of the form schemas of
    [src/app/tours/add-tour/page_old.tsx], [src/app/tours/[id]/page.tsx] and
    [src/app/transfers/add-transfer/page.tsx], of the slug generation and of
    the validate-then-save workflow of the two creation forms.

    Strings are [string]: a character stands for one UTF-16 code unit below
    256, and [String.length] is the JavaScript [.length].  A number is a
    [jsnum]: either [NaN] (what an emptied numeric input yields under
    [valueAsNumber]) or a finite value, kept as a rational, on which the
    comparisons of the schemas agree with those of JavaScript.  A scalar
    field is an [option], [None] standing for [undefined]; tags, departure
    times and FAQ entries are always lists.

    The schemas are written with the combinators of the zod library, which
    is not part of the repository.  The combinators below follow its parser:
    every member of an object is parsed and its issues are collected; a
    value of the wrong type aborts the parse, a failed check only marks it
    dirty; an object refinement runs unless the parse it wraps aborted. *)

From Stdlib Require Import String Ascii List Bool Arith Lia QArith Lqa.
Import ListNotations.
Close Scope Q_scope.
Open Scope string_scope.

(** ** JavaScript values and string primitives *)

Inductive jsnum : Type :=
| NaN : jsnum
| Num : Q -> jsnum.

(** [a > b], [a <= b] on numbers that may be [undefined] or [NaN]: a
    comparison with either of them is false. *)
Definition js_gt (a b : option jsnum) : bool :=
  match a, b with
  | Some (Num x), Some (Num y) => negb (Qle_bool x y)
  | _, _ => false
  end.

Definition js_le (a b : option jsnum) : bool :=
  match a, b with
  | Some (Num x), Some (Num y) => Qle_bool x y
  | _, _ => false
  end.

(** Truthiness of a number ([0], [NaN] and [undefined] are falsy) and of a
    string (the empty string and [undefined] are falsy). *)
Definition truthy_num (a : option jsnum) : bool :=
  match a with
  | Some (Num x) => negb (Qeq_bool x 0)
  | _ => false
  end.

Definition truthy_str (a : option string) : bool :=
  match a with
  | Some s => negb (s =? "")
  | None => false
  end.

Definition code (c : ascii) : nat := nat_of_ascii c.

Definition in_range (lo hi : nat) (c : ascii) : bool :=
  (lo <=? code c)%nat && (code c <=? hi)%nat.

Definition is_lower (c : ascii) : bool := in_range 97 122 c.
Definition is_digit (c : ascii) : bool := in_range 48 57 c.
Definition is_hyphen (c : ascii) : bool := (c =? "-")%char.

(** The class [\s] (and the characters [trim] removes) among the code units
    below 256: TAB, LF, VT, FF, CR, space and NBSP. *)
Definition is_space (c : ascii) : bool :=
  in_range 9 13 c || (code c =? 32)%nat || (code c =? 160)%nat.

Fixpoint all_chars (p : ascii -> bool) (s : string) : bool :=
  match s with
  | "" => true
  | String c r => p c && all_chars p r
  end.

Fixpoint map_chars (f : ascii -> ascii) (s : string) : string :=
  match s with
  | "" => ""
  | String c r => String (f c) (map_chars f r)
  end.

Fixpoint filter_chars (p : ascii -> bool) (s : string) : string :=
  match s with
  | "" => ""
  | String c r => if p c then String c (filter_chars p r) else filter_chars p r
  end.

Fixpoint dropWhile (p : ascii -> bool) (s : string) : string :=
  match s with
  | "" => ""
  | String c r => if p c then dropWhile p r else s
  end.

Fixpoint dropWhileEnd (p : ascii -> bool) (s : string) : string :=
  match s with
  | "" => ""
  | String c r =>
      let r' := dropWhileEnd p r in
      if p c && (r' =? "") then "" else String c r'
  end.

(** [s.replace(/X+/g, "-")] for a character class [X]: every maximal run of
    characters of the class becomes one hyphen.  [in_run] tells that the
    previous character belonged to the run being replaced. *)
Fixpoint replace_runs (p : ascii -> bool) (in_run : bool) (s : string) : string :=
  match s with
  | "" => ""
  | String c r =>
      if p c
      then if in_run then replace_runs p true r
           else String "-" (replace_runs p true r)
      else String c (replace_runs p false r)
  end.

(** [String.prototype.toLowerCase] on code units below 256: [A-Z] and the
    Latin-1 capitals (192..222 but the multiplication sign 215) move up by
    32. *)
Definition lower_char (c : ascii) : ascii :=
  if in_range 65 90 c || (in_range 192 222 c && negb (code c =? 215)%nat)
  then ascii_of_nat (code c + 32)
  else c.

Definition toLowerCase (s : string) : string := map_chars lower_char s.

Definition trim (s : string) : string :=
  dropWhileEnd is_space (dropWhile is_space s).

(** ** Slug generation (the effect on [watchTitle]) *)

Definition slug_keep (c : ascii) : bool :=
  is_lower c || is_digit c || (code c =? 32)%nat || is_hyphen c.

(** The chain of [toLowerCase], [trim] and four [replace] calls. *)
Definition generatedSlug (watchTitle : string) : string :=
  let s1 := trim (toLowerCase watchTitle) in
  let s2 := filter_chars slug_keep s1 in            (* /[^a-z0-9 -]/g -> "" *)
  let s3 := replace_runs is_space false s2 in       (* /\s+/g -> "-" *)
  let s4 := replace_runs is_hyphen false s3 in      (* /-+/g -> "-" *)
  dropWhileEnd is_hyphen (dropWhile is_hyphen s4).  (* /^-+|-+$/g -> "" *)

(** What the slug effect stores: the generated slug for a title that is not
    blank, the empty string otherwise. *)
Definition slug_effect (watchTitle : option string) : string :=
  match watchTitle with
  | Some t => if negb (trim t =? "") then generatedSlug t else ""
  | None => ""
  end.

(** The pattern [/^[a-z0-9-]*$/] of the slug field. *)
Definition slug_char (c : ascii) : bool :=
  is_lower c || is_digit c || is_hyphen c.

Definition slug_regex (s : string) : bool := all_chars slug_char s.

(** ** Markup stripping *)

Fixpoint contains_char (a : ascii) (s : string) : bool :=
  match s with
  | "" => false
  | String c r => (c =? a)%char || contains_char a r
  end.

Fixpoint strip_tags (in_tag : bool) (s : string) : string :=
  match s with
  | "" => ""
  | String c r =>
      if in_tag
      then strip_tags (negb (c =? ">")%char) r
      else if (c =? "<")%char && contains_char ">" r
           then strip_tags true r
           else String c (strip_tags false r)
  end.

(** Modelled from the spec: [stripHtmlTags] of [@/lib/htmlValidation], which
    the pages import and which is not among the sources.  The spec defines
    the stripped length as "the character count of a rich-text value after
    removing all markup tags": every tag, from a [<] to the next [>], is
    deleted and the text between tags is kept. *)
Definition stripHtmlTags_model (html : string) : string :=
  strip_tags false html.

(** ** The schema combinators

    The pages build their schemas from the combinators of the zod library.
    Each combinator is a function from a path and a value to a [result]: the
    status of the parse and the issues it raised, in order.  A value of the
    wrong type (a missing required value, [NaN], a string outside an enum)
    makes the parse [aborted]; a failed check ([min], [max], [regex], a
    [refine] predicate) makes it [dirty] and parsing goes on. *)

Inductive seg : Type :=
| Key : string -> seg
| Idx : nat -> seg.

Definition path : Type := list seg.

(** The path of a member or of an element below [p]. *)
Definition sub (p : path) (s : seg) : path := List.app p [s].

Record issue : Type := Issue { ipath : path; message : string }.

Inductive status : Type := valid | dirty | aborted.

Record result : Type := Result { st : status; issues : list issue }.

Definition OK : result := Result valid [].

(** [INVALID] together with the issue that was added before returning it. *)
Definition INVALID (p : path) (msg : string) : result :=
  Result aborted [Issue p msg].

Definition DIRTY (p : path) (msg : string) : result :=
  Result dirty [Issue p msg].

Definition join (a b : status) : status :=
  match a, b with
  | aborted, _ | _, aborted => aborted
  | dirty, _ | _, dirty => dirty
  | valid, valid => valid
  end.

(** The status and the issues of several parses made one after the other:
    what [mergeObjectSync] and [mergeArray] compute for the members of an
    object or the elements of an array. *)
Definition merge (rs : list result) : result :=
  Result (fold_right join valid (map st rs)) (concat (map issues rs)).

Definition check (ok : bool) (p : path) (msg : string) : result :=
  if ok then OK else DIRTY p msg.

Inductive string_check : Type :=
| min_len : nat -> string -> string_check
| max_len : nat -> string -> string_check
| regex : (string -> bool) -> string -> string_check.

Definition run_string_check (p : path) (s : string) (c : string_check) : result :=
  match c with
  | min_len n msg => check (n <=? String.length s)%nat p msg
  | max_len n msg => check (String.length s <=? n)%nat p msg
  | regex re msg => check (re s) p msg
  end.

(** [z.string()] followed by its checks. *)
Definition z_string (checks : list string_check) (p : path) (v : option string) : result :=
  match v with
  | None => INVALID p "Required"
  | Some s => merge (map (run_string_check p s) checks)
  end.

Inductive number_check : Type :=
| min_num : Q -> string -> number_check
| max_num : Q -> string -> number_check.

Definition run_number_check (p : path) (x : Q) (c : number_check) : result :=
  match c with
  | min_num lo msg => check (Qle_bool lo x) p msg
  | max_num hi msg => check (Qle_bool x hi) p msg
  end.

(** [z.number()] followed by its checks; [NaN] is not a number for it. *)
Definition z_number (checks : list number_check) (p : path) (v : option jsnum) : result :=
  match v with
  | None => INVALID p "Required"
  | Some NaN => INVALID p "Expected number, received nan"
  | Some (Num x) => merge (map (run_number_check p x) checks)
  end.

Fixpoint mem (s : string) (l : list string) : bool :=
  match l with
  | [] => false
  | x :: r => (s =? x) || mem s r
  end.

(** [z.enum([...])]. *)
Definition z_enum (values : list string) (p : path) (v : option string) : result :=
  match v with
  | None => INVALID p "Required"
  | Some s => if mem s values then OK else INVALID p "Invalid enum value"
  end.

(** [z.literal(l)]. *)
Definition z_literal (l : string) (p : path) (v : option string) : result :=
  match v with
  | Some s => if s =? l then OK else INVALID p "Invalid literal value"
  | None => INVALID p "Invalid literal value"
  end.

(** [schema.optional()]: [undefined] is accepted as it is. *)
Definition optional {A : Type} (schema : path -> option A -> result)
  (p : path) (v : option A) : result :=
  match v with
  | None => OK
  | Some _ => schema p v
  end.

(** [a.or(b)]: the first option whose parse is valid wins; failing that, the
    first dirty one with its issues; failing that, one [invalid_union]
    issue. *)
Definition or {A : Type} (a b : path -> A -> result) (p : path) (v : A) : result :=
  let ra := a p v in
  let rb := b p v in
  match st ra, st rb with
  | valid, _ => ra
  | _, valid => rb
  | dirty, _ => ra
  | _, dirty => rb
  | aborted, aborted => INVALID p "Invalid input"
  end.

(** [schema.refine(pred, msg)] on a field: the predicate is run on the value
    unless the inner parse aborted; its issue sits at the field's path. *)
Definition refine_field (schema : path -> option string -> result)
  (pred : string -> bool) (msg : string) (p : path) (v : option string) : result :=
  let inner := schema p v in
  match st inner, v with
  | aborted, _ | _, None => inner
  | _, Some s => merge [inner; check (pred s) p msg]
  end.

Fixpoint parse_elements {A : Type} (elem : path -> A -> result)
  (p : path) (i : nat) (l : list A) : list result :=
  match l with
  | [] => []
  | x :: r => elem (sub p (Idx i)) x :: parse_elements elem p (S i) r
  end.

(** [z.array(elem)], with the optional [.min(n, msg)]. *)
Definition z_array {A : Type} (elem : path -> A -> result)
  (min : option (nat * string)) (p : path) (l : list A) : result :=
  let size :=
    match min with
    | Some (n, msg) => check (n <=? List.length l)%nat p msg
    | None => OK
    end in
  merge (size :: parse_elements elem p 0 l).

(** [schema.refine(pred, {message, path})] on an object: skipped when the
    inner parse aborted, run on the parsed data otherwise, also after
    another refinement or a field check failed. *)
Definition refine {D : Type} (schema : D -> result)
  (pred : D -> bool) (msg : string) (p : path) (data : D) : result :=
  let inner := schema data in
  match st inner with
  | aborted => inner
  | _ => merge [inner; check (pred data) p msg]
  end.

(** A refinement of an object schema: its predicate, message and path; the
    issue it raises; and a chain of [.refine(...)] calls as the list of its
    refinements, first call first. *)
Record rule (D : Type) : Type := Rule {
  holds : D -> bool;
  rule_message : string;
  rule_path : path
}.

Arguments Rule {D} _ _ _.
Arguments holds {D} _ _.
Arguments rule_message {D} _.
Arguments rule_path {D} _.

Definition rule_issue {D : Type} (r : rule D) : issue :=
  Issue (rule_path r) (rule_message r).

Definition refine_all {D : Type} (schema : D -> result) (rules : list (rule D))
  : D -> result :=
  fold_left (fun s r => refine s (holds r) (rule_message r) (rule_path r)) rules schema.

(** The issues of the refinements of [rules] that fail on [data]. *)
Definition failed {D : Type} (rules : list (rule D)) (data : D) : list issue :=
  map rule_issue (filter (fun r => negb (holds r data)) rules).

(** The entries of a FAQ list, shared by the three schemas. *)
Record Faq : Type := { question : string; answer : string }.

Definition faq_entry (p : path) (f : Faq) : result :=
  merge [ z_string [min_len 1 "Question is required"] (sub p (Key "question")) (Some (question f));
          z_string [min_len 1 "Answer is required"] (sub p (Key "answer")) (Some (answer f)) ].

Definition some_string (checks : list string_check) (p : path) (s : string) : result :=
  z_string checks p (Some s).

(** The slug field: [z.string().regex(...).optional().or(z.literal(""))]. *)
Definition slug_field : path -> option string -> result :=
  or (optional (z_string
        [regex slug_regex "Slug can only contain lowercase letters, numbers and hyphens"]))
     (z_literal "").

(** [validFaqs]: the entries whose question and answer are both non-blank. *)
Definition validFaqs (faq : list Faq) : list Faq :=
  filter (fun f => negb (trim (question f) =? "") && negb (trim (answer f) =? "")) faq.

(** Helpers for the predicates of the object refinements. *)
Definition str_is (v : option string) (s : string) : bool :=
  match v with
  | Some x => x =? s
  | None => false
  end.

Definition defined {A : Type} (v : option A) : bool :=
  match v with
  | Some _ => true
  | None => false
  end.

(** [v.length >= n], false for [undefined]. *)
Definition len_ge (v : option string) (n : nat) : bool :=
  match v with
  | Some s => (n <=? String.length s)%nat
  | None => false
  end.

(** [v.trim() === ""]. *)
Definition trim_is_empty (v : option string) : bool :=
  match v with
  | Some s => trim s =? ""
  | None => false
  end.

Definition at_least (n : nat) (stripped : string) : bool :=
  (n <=? String.length stripped)%nat.

(** ** The tour creation form: [tourSchema] of [add-tour/page_old.tsx] *)

Module Tour.

Record Details : Type := {
  about : option string;
  itinerary : option string;
  pickupLocation : option string;
  pickupGuidelines : option string;
  note : option string;
  faq : list Faq
}.

Record Draft : Type := {
  title : option string;
  slug : option string;
  image : option string;
  tags : list string;
  description : option string;
  type : option string;
  duration : option string;
  period : option string;
  bookedCount : option jsnum;
  oldPrice : option jsnum;
  newPrice : option jsnum;
  childPrice : option jsnum;
  minimumPerson : option jsnum;
  maximumPerson : option jsnum;
  vehicle : option string;
  seatCapacity : option jsnum;
  departureTimes : list string;
  label : option string;
  details : Details
}.

Section Schema.

Variable stripHtmlTags : string -> string.

Definition detailsObject (p : path) (d : Details) : result :=
  merge [
    refine_field (z_string [])
      (fun val => at_least 100 (stripHtmlTags val))
      "About section must be at least 100 characters"
      (sub p (Key "about")) (about d);
    refine_field (z_string [])
      (fun val => at_least 100 (stripHtmlTags val))
      "Itinerary must be at least 100 characters"
      (sub p (Key "itinerary")) (itinerary d);
    refine_field (z_string [])
      (fun val => at_least 10 (stripHtmlTags val))
      "Pickup location must be at least 10 characters"
      (sub p (Key "pickupLocation")) (pickupLocation d);
    refine_field (z_string [])
      (fun val => (val =? "") || at_least 15 (stripHtmlTags val))
      "Pickup guidelines must be at least 15 characters"
      (sub p (Key "pickupGuidelines")) (pickupGuidelines d);
    refine_field (z_string [])
      (fun val => at_least 10 (stripHtmlTags val))
      "Note must be at least 10 characters"
      (sub p (Key "note")) (note d);
    z_array faq_entry None (sub p (Key "faq")) (faq d) ].

(** The [z.object({...})] of the schema, before its refinements. *)
Definition tourObject (data : Draft) : result :=
  merge [
    z_string [min_len 20 "Title must be at least 20 characters";
              max_len 100 "Title cannot exceed 100 characters"]
      [Key "title"] (title data);
    slug_field [Key "slug"] (slug data);
    z_string [min_len 1 "Please provide an image"] [Key "image"] (image data);
    z_array (some_string [min_len 1 "String must contain at least 1 character(s)"])
      (Some (1, "At least one tag is required")) [Key "tags"] (tags data);
    z_string [min_len 50 "Description must be at least 50 characters";
              max_len 110 "Description cannot exceed 110 characters"]
      [Key "description"] (description data);
    z_enum ["co-tour"; "private"] [Key "type"] (type data);
    z_string [min_len 1 "Duration is required"] [Key "duration"] (duration data);
    z_enum ["Half-Day"; "Full-Day"] [Key "period"] (period data);
    z_number [min_num 0 "Number must be greater than or equal to 0"]
      [Key "bookedCount"] (bookedCount data);
    z_number [min_num 0 "Old price must be 0 or greater"] [Key "oldPrice"] (oldPrice data);
    z_number [min_num 0 "New price must be 0 or greater"] [Key "newPrice"] (newPrice data);
    z_number [min_num 0 "Child price must be 0 or greater"]
      [Key "childPrice"] (childPrice data);
    z_number [min_num 1 "Minimum must be at least 1 person"]
      [Key "minimumPerson"] (minimumPerson data);
    z_number [min_num 1 "Maximum must be at least 1 person"]
      [Key "maximumPerson"] (maximumPerson data);
    optional (z_string []) [Key "vehicle"] (vehicle data);
    optional (z_number []) [Key "seatCapacity"] (seatCapacity data);
    z_array (some_string []) (Some (1, "At least one departure time is required"))
      [Key "departureTimes"] (departureTimes data);
    z_enum ["Recommended"; "Popular"; "Best Value"; "Best seller"; "None"]
      [Key "label"] (label data);
    detailsObject [Key "details"] (details data) ].

Definition price_rule (data : Draft) : bool :=
  if js_gt (newPrice data) (oldPrice data) then false else true.

Definition person_rule (data : Draft) : bool :=
  if negb (str_is (type data) "private")
     && js_le (maximumPerson data) (minimumPerson data)
  then false else true.

Definition vehicle_rule (data : Draft) : bool :=
  if str_is (type data) "private"
     && (negb (truthy_str (vehicle data)) || trim_is_empty (vehicle data))
  then false else true.

Definition tourSchema : Draft -> result :=
  refine
    (refine
       (refine tourObject
          price_rule
          "New price must be less than or equal to old price" [Key "newPrice"])
       person_rule
       "Maximum persons must be greater than minimum persons" [Key "maximumPerson"])
    vehicle_rule
    "Vehicle is required for private tours" [Key "vehicle"].

(** The error set that [trigger()] leaves, and its verdict. *)
Definition errors (data : Draft) : list issue := issues (tourSchema data).

Definition isFormValid (data : Draft) : bool :=
  match errors data with
  | [] => true
  | _ :: _ => false
  end.

End Schema.

(** The refinements of [tourSchema] in the order of the chain, and the
    issues that only they raise. *)
Definition refinements : list (rule Draft) := [
  Rule price_rule "New price must be less than or equal to old price" [Key "newPrice"];
  Rule person_rule "Maximum persons must be greater than minimum persons"
    [Key "maximumPerson"];
  Rule vehicle_rule "Vehicle is required for private tours" [Key "vehicle"] ].

Definition crossField : list issue := map rule_issue refinements.

End Tour.

(** ** The tour edit form: [tourSchema] of [tours/[id]/page.tsx] *)

Module TourEdit.

Record Details : Type := {
  about : option string;
  itinerary : option string;
  pickupLocations : list string;
  pickupGuidelines : option string;
  notes : list string;
  includes : list string;
  faq : list Faq
}.

Record Draft : Type := {
  title : option string;
  slug : option string;
  image : option string;
  tags : list string;
  description : option string;
  type : option string;
  duration : option string;
  period : option string;
  bookedCount : option jsnum;
  rating : option jsnum;
  reviewCount : option jsnum;
  oldPrice : option jsnum;
  newPrice : option jsnum;
  childPrice : option jsnum;
  minimumPerson : option jsnum;
  maximumPerson : option jsnum;
  vehicle : option string;
  seatCapacity : option jsnum;
  departureTimes : list string;
  label : option string;
  details : Details
}.

Definition non_empty : path -> string -> result :=
  some_string [min_len 1 "String must contain at least 1 character(s)"].

Definition detailsObject (p : path) (d : Details) : result :=
  merge [
    z_string [min_len 100 "About section must be at least 100 characters"]
      (sub p (Key "about")) (about d);
    z_string [min_len 50 "Itinerary must be at least 50 characters"]
      (sub p (Key "itinerary")) (itinerary d);
    z_array non_empty (Some (1, "At least one pickup location is required"))
      (sub p (Key "pickupLocations")) (pickupLocations d);
    optional (z_string []) (sub p (Key "pickupGuidelines")) (pickupGuidelines d);
    z_array non_empty (Some (1, "At least one note is required"))
      (sub p (Key "notes")) (notes d);
    z_array non_empty (Some (1, "At least one included item is required"))
      (sub p (Key "includes")) (includes d);
    z_array faq_entry None (sub p (Key "faq")) (faq d) ].

Definition tourObject (data : Draft) : result :=
  merge [
    z_string [min_len 20 "Title must be at least 20 characters";
              max_len 100 "Title cannot exceed 100 characters"]
      [Key "title"] (title data);
    slug_field [Key "slug"] (slug data);
    z_string [min_len 1 "Please provide an image"] [Key "image"] (image data);
    z_array non_empty (Some (1, "At least one tag is required")) [Key "tags"] (tags data);
    z_string [min_len 50 "Description must be at least 50 characters";
              max_len 200 "Description cannot exceed 200 characters"]
      [Key "description"] (description data);
    z_enum ["co-tour"; "private"] [Key "type"] (type data);
    z_string [min_len 1 "Duration is required"] [Key "duration"] (duration data);
    z_enum ["Half-Day"; "Full-Day"] [Key "period"] (period data);
    z_number [min_num 0 "Number must be greater than or equal to 0"]
      [Key "bookedCount"] (bookedCount data);
    optional (z_number [min_num 0 "Number must be greater than or equal to 0";
                        max_num 5 "Number must be less than or equal to 5"])
      [Key "rating"] (rating data);
    optional (z_number [min_num 0 "Number must be greater than or equal to 0"])
      [Key "reviewCount"] (reviewCount data);
    z_number [min_num 0 "Old price must be 0 or greater"] [Key "oldPrice"] (oldPrice data);
    z_number [min_num 0 "New price must be 0 or greater"] [Key "newPrice"] (newPrice data);
    z_number [min_num 0 "Child price must be 0 or greater"]
      [Key "childPrice"] (childPrice data);
    z_number [min_num 1 "Minimum must be at least 1 person"]
      [Key "minimumPerson"] (minimumPerson data);
    z_number [min_num 1 "Maximum must be at least 1 person"]
      [Key "maximumPerson"] (maximumPerson data);
    optional (z_string []) [Key "vehicle"] (vehicle data);
    optional (z_number []) [Key "seatCapacity"] (seatCapacity data);
    z_array (some_string []) (Some (1, "At least one departure time is required"))
      [Key "departureTimes"] (departureTimes data);
    z_enum ["Recommended"; "Popular"; "Best Value"; "Best Seller"; "None"]
      [Key "label"] (label data);
    detailsObject [Key "details"] (details data) ].

Definition price_rule (data : Draft) : bool :=
  if js_gt (newPrice data) (oldPrice data) then false else true.

Definition person_rule (data : Draft) : bool :=
  if negb (str_is (type data) "private")
     && js_le (maximumPerson data) (minimumPerson data)
  then false else true.

Definition tourSchema : Draft -> result :=
  refine
    (refine tourObject
       price_rule
       "New price must be less than or equal to old price" [Key "newPrice"])
    person_rule
    "Maximum persons must be greater than minimum persons" [Key "maximumPerson"].

Definition errors (data : Draft) : list issue := issues (tourSchema data).

Definition refinements : list (rule Draft) := [
  Rule price_rule "New price must be less than or equal to old price" [Key "newPrice"];
  Rule person_rule "Maximum persons must be greater than minimum persons"
    [Key "maximumPerson"] ].

Definition crossField : list issue := map rule_issue refinements.

End TourEdit.

(** ** The transfer creation form: [transferSchema] of
    [add-transfer/page.tsx] *)

Module Transfer.

Record Details : Type := {
  about : option string;
  itinerary : option string;
  pickupOption : option string;
  pickupLocation : option string;
  dropOffLocation : option string;
  pickupGuidelines : option string;
  note : option string;
  faq : list Faq
}.

Record Draft : Type := {
  title : option string;
  slug : option string;
  image : option string;
  tags : list string;
  description : option string;
  type : option string;
  vehicle : option string;
  from : option string;
  to : option string;
  duration : option string;
  bookedCount : option jsnum;
  rating : option jsnum;
  reviewCount : option jsnum;
  oldPrice : option jsnum;
  newPrice : option jsnum;
  childPrice : option jsnum;
  minimumPerson : option jsnum;
  maximumPerson : option jsnum;
  seatCapacity : option jsnum;
  departureTimes : list string;
  label : option string;
  details : Details
}.

Section Schema.

Variable stripHtmlTags : string -> string.

Definition detailsObject (p : path) (d : Details) : result :=
  merge [
    refine_field (z_string [])
      (fun val => at_least 100 (stripHtmlTags val))
      "About section must be at least 100 characters"
      (sub p (Key "about")) (about d);
    refine_field (z_string [])
      (fun val => at_least 100 (stripHtmlTags val))
      "Itinerary must be at least 100 characters"
      (sub p (Key "itinerary")) (itinerary d);
    z_enum ["admin"; "user"] (sub p (Key "pickupOption")) (pickupOption d);
    optional (z_string []) (sub p (Key "pickupLocation")) (pickupLocation d);
    optional (z_string []) (sub p (Key "dropOffLocation")) (dropOffLocation d);
    refine_field (z_string [])
      (fun val => (val =? "") || at_least 15 (stripHtmlTags val))
      "Pickup guidelines must be at least 15 characters"
      (sub p (Key "pickupGuidelines")) (pickupGuidelines d);
    refine_field (z_string [])
      (fun val => at_least 10 (stripHtmlTags val))
      "Note must be at least 10 characters"
      (sub p (Key "note")) (note d);
    z_array faq_entry None (sub p (Key "faq")) (faq d) ].

Definition transferObject (data : Draft) : result :=
  merge [
    z_string [min_len 20 "Title must be at least 20 characters";
              max_len 100 "Title cannot exceed 100 characters"]
      [Key "title"] (title data);
    slug_field [Key "slug"] (slug data);
    z_string [min_len 1 "Please provide an image"] [Key "image"] (image data);
    z_array (some_string [min_len 1 "String must contain at least 1 character(s)"])
      (Some (1, "At least one tag is required")) [Key "tags"] (tags data);
    z_string [min_len 50 "Description must be at least 50 characters";
              max_len 110 "Description cannot exceed 110 characters"]
      [Key "description"] (description data);
    z_enum ["Van"; "Van + Ferry"; "Private"] [Key "type"] (type data);
    optional (z_string []) [Key "vehicle"] (vehicle data);
    z_string [min_len 2 "From location is required"] [Key "from"] (from data);
    z_string [min_len 2 "To location is required"] [Key "to"] (to data);
    z_string [min_len 1 "Duration is required"] [Key "duration"] (duration data);
    z_number [min_num 0 "Number must be greater than or equal to 0"]
      [Key "bookedCount"] (bookedCount data);
    optional (z_number [min_num 0 "Number must be greater than or equal to 0";
                        max_num 5 "Number must be less than or equal to 5"])
      [Key "rating"] (rating data);
    optional (z_number [min_num 0 "Number must be greater than or equal to 0"])
      [Key "reviewCount"] (reviewCount data);
    z_number [min_num 0 "Old price must be 0 or greater"] [Key "oldPrice"] (oldPrice data);
    z_number [min_num 0 "New price must be 0 or greater"] [Key "newPrice"] (newPrice data);
    optional (z_number [min_num 0 "Child price must be 0 or greater"])
      [Key "childPrice"] (childPrice data);
    optional (z_number [min_num 1 "Minimum must be at least 1 person"])
      [Key "minimumPerson"] (minimumPerson data);
    optional (z_number [min_num 1 "Maximum must be at least 1 person"])
      [Key "maximumPerson"] (maximumPerson data);
    z_number [min_num 1 "Seat capacity must be at least 1"]
      [Key "seatCapacity"] (seatCapacity data);
    z_array (some_string []) (Some (1, "At least one departure time is required"))
      [Key "departureTimes"] (departureTimes data);
    z_enum ["Recommended"; "Popular"; "Best Value"; "Best seller"; "None"]
      [Key "label"] (label data);
    detailsObject [Key "details"] (details data) ].

Definition price_rule (data : Draft) : bool :=
  if js_gt (newPrice data) (oldPrice data) then false else true.

Definition required_rule (data : Draft) : bool :=
  if negb (str_is (type data) "Private")
  then defined (childPrice data) && defined (minimumPerson data)
       && defined (maximumPerson data)
  else true.

Definition person_rule (data : Draft) : bool :=
  if negb (str_is (type data) "Private")
     && truthy_num (maximumPerson data)
     && truthy_num (minimumPerson data)
     && js_le (maximumPerson data) (minimumPerson data)
  then false else true.

(** [from] and [to] are strings whenever this predicate runs: with one of
    them [undefined] the object parse has aborted. *)
Definition route_rule (data : Draft) : bool :=
  match from data, to data with
  | Some f, Some t => if toLowerCase f =? toLowerCase t then false else true
  | _, _ => true
  end.

Definition pickupLocation_rule (data : Draft) : bool :=
  if str_is (pickupOption (details data)) "admin"
  then truthy_str (pickupLocation (details data))
       && len_ge (pickupLocation (details data)) 10
  else true.

Definition pickupGuidelines_rule (data : Draft) : bool :=
  truthy_str (pickupGuidelines (details data))
  && len_ge (pickupGuidelines (details data)) 15.

Definition vehicle_rule (data : Draft) : bool :=
  if str_is (type data) "Private"
  then truthy_str (vehicle data) && len_ge (vehicle data) 2
  else true.

Definition transferSchema : Draft -> result :=
  refine (refine (refine (refine (refine (refine (refine transferObject
    price_rule
    "New price must be less than or equal to old price" [Key "newPrice"])
    required_rule
    "Child price, minimum persons, and maximum persons are required for non-Private transfers"
    [Key "type"])
    person_rule
    "Maximum persons must be greater than minimum persons" [Key "maximumPerson"])
    route_rule
    "From and To locations must be different" [Key "to"])
    pickupLocation_rule
    "Pickup location must be at least 10 characters" [Key "details.pickupLocation"])
    pickupGuidelines_rule
    "Pickup guidelines must be at least 15 characters" [Key "details.pickupGuidelines"])
    vehicle_rule
    "Vehicle name is required for private transfers" [Key "vehicle"].

Definition errors (data : Draft) : list issue := issues (transferSchema data).

Definition isFormValid (data : Draft) : bool :=
  match errors data with
  | [] => true
  | _ :: _ => false
  end.

End Schema.

Definition refinements : list (rule Draft) := [
  Rule price_rule "New price must be less than or equal to old price" [Key "newPrice"];
  Rule required_rule
    "Child price, minimum persons, and maximum persons are required for non-Private transfers"
    [Key "type"];
  Rule person_rule "Maximum persons must be greater than minimum persons"
    [Key "maximumPerson"];
  Rule route_rule "From and To locations must be different" [Key "to"];
  Rule pickupLocation_rule "Pickup location must be at least 10 characters"
    [Key "details.pickupLocation"];
  Rule pickupGuidelines_rule "Pickup guidelines must be at least 15 characters"
    [Key "details.pickupGuidelines"];
  Rule vehicle_rule "Vehicle name is required for private transfers" [Key "vehicle"] ].

Definition crossField : list issue := map rule_issue refinements.

End Transfer.

(** ** The validate-then-save workflow of the creation forms

    The state of a page is the current form values and the three flags of
    its [useState] hooks.  The reset effect runs after a change of one of the
    values of its dependency list; the comparisons below say when two value
    sets agree on a dependency (a list is taken to change when its contents
    do). *)

Definition same_num (a b : option jsnum) : bool :=
  match a, b with
  | None, None => true
  | Some NaN, Some NaN => true
  | Some (Num x), Some (Num y) => Qeq_bool x y
  | _, _ => false
  end.

Definition same_str (a b : option string) : bool :=
  match a, b with
  | None, None => true
  | Some x, Some y => x =? y
  | _, _ => false
  end.

Fixpoint same_list {A : Type} (eqb : A -> A -> bool) (a b : list A) : bool :=
  match a, b with
  | [], [] => true
  | x :: a', y :: b' => eqb x y && same_list eqb a' b'
  | _, _ => false
  end.

Definition same_faq (a b : Faq) : bool :=
  (question a =? question b) && (answer a =? answer b).

Inductive outcome (D : Type) : Type :=
| Prompt : string -> outcome D       (* a toast, nothing is sent *)
| Submitted : D -> outcome D.        (* the values the POST request is built from *)

Arguments Prompt {D} _.
Arguments Submitted {D} _.

Module TourForm.

Import Tour.

Record State : Type := {
  values : Draft;
  hasValidated : bool;
  validationSuccess : bool;
  showValidationErrors : bool
}.

(** The dependency list of the reset effect: every [watch]ed value. *)
Definition same_deps (a b : Draft) : bool :=
  same_str (title a) (title b) && same_str (type a) (type b)
  && same_str (description a) (description b) && same_str (image a) (image b)
  && same_list String.eqb (tags a) (tags b) && same_str (duration a) (duration b)
  && same_num (bookedCount a) (bookedCount b) && same_num (oldPrice a) (oldPrice b)
  && same_num (newPrice a) (newPrice b) && same_num (childPrice a) (childPrice b)
  && same_num (minimumPerson a) (minimumPerson b)
  && same_num (maximumPerson a) (maximumPerson b)
  && same_str (vehicle a) (vehicle b) && same_str (period a) (period b)
  && same_str (label a) (label b) && same_str (slug a) (slug b)
  && same_list String.eqb (departureTimes a) (departureTimes b)
  && same_str (about (details a)) (about (details b))
  && same_str (itinerary (details a)) (itinerary (details b))
  && same_str (pickupLocation (details a)) (pickupLocation (details b))
  && same_str (note (details a)) (note (details b))
  && same_list same_faq (faq (details a)) (faq (details b))
  && same_str (pickupGuidelines (details a)) (pickupGuidelines (details b)).

Section Workflow.

Variable stripHtmlTags : string -> string.

(** The form values become [data]; the reset effect runs if a dependency
    changed. *)
Definition field_change (data : Draft) (s : State) : State :=
  if negb (same_deps (values s) data) && hasValidated s
  then {| values := data; hasValidated := false;
          validationSuccess := false; showValidationErrors := false |}
  else {| values := data; hasValidated := hasValidated s;
          validationSuccess := validationSuccess s;
          showValidationErrors := showValidationErrors s |}.

Definition handleShowErrors (s : State) : State :=
  let currentData := values s in
  let success :=
    if isFormValid stripHtmlTags currentData
    then match validFaqs (faq (details currentData)) with
         | [] => false
         | _ :: _ => true
         end
    else false in
  {| values := currentData; hasValidated := true;
     validationSuccess := success; showValidationErrors := true |}.

Definition handleSaveTour (s : State) : outcome Draft :=
  if negb (hasValidated s) || negb (validationSuccess s)
  then Prompt "Please validate the form first"
  else Submitted (values s).

End Workflow.

End TourForm.

Module TransferForm.

Import Transfer.

Record State : Type := {
  values : Draft;
  uploadedImageUrl : string;
  hasValidated : bool;
  validationSuccess : bool;
  showValidationErrors : bool
}.

(** The dependency list of the reset effect.  [vehicle], [rating],
    [reviewCount], [seatCapacity] and [details.dropOffLocation] are not in
    it. *)
Definition same_deps (a b : Draft) : bool :=
  same_str (title a) (title b) && same_str (type a) (type b)
  && same_str (description a) (description b) && same_str (image a) (image b)
  && same_list String.eqb (tags a) (tags b) && same_str (duration a) (duration b)
  && same_num (bookedCount a) (bookedCount b) && same_num (oldPrice a) (oldPrice b)
  && same_num (newPrice a) (newPrice b) && same_num (childPrice a) (childPrice b)
  && same_str (label a) (label b) && same_str (slug a) (slug b)
  && same_str (from a) (from b) && same_str (to a) (to b)
  && same_str (pickupOption (details a)) (pickupOption (details b))
  && same_num (minimumPerson a) (minimumPerson b)
  && same_num (maximumPerson a) (maximumPerson b)
  && same_list String.eqb (departureTimes a) (departureTimes b)
  && same_str (about (details a)) (about (details b))
  && same_str (itinerary (details a)) (itinerary (details b))
  && same_str (pickupLocation (details a)) (pickupLocation (details b))
  && same_str (pickupGuidelines (details a)) (pickupGuidelines (details b))
  && same_str (note (details a)) (note (details b))
  && same_list same_faq (faq (details a)) (faq (details b)).

Section Workflow.

Variable stripHtmlTags : string -> string.

Definition field_change (data : Draft) (s : State) : State :=
  if negb (same_deps (values s) data) && hasValidated s
  then {| values := data; uploadedImageUrl := uploadedImageUrl s;
          hasValidated := false; validationSuccess := false;
          showValidationErrors := false |}
  else {| values := data; uploadedImageUrl := uploadedImageUrl s;
          hasValidated := hasValidated s;
          validationSuccess := validationSuccess s;
          showValidationErrors := showValidationErrors s |}.

Definition handleShowErrors (s : State) : State :=
  let currentData := values s in
  let success :=
    if isFormValid stripHtmlTags currentData
    then match validFaqs (faq (details currentData)) with
         | [] => false
         | _ :: _ => true
         end
    else false in
  {| values := currentData; uploadedImageUrl := uploadedImageUrl s;
     hasValidated := true; validationSuccess := success;
     showValidationErrors := true |}.

(** [onSubmit] up to the request: it only waits for the uploaded image. *)
Definition onSubmit (s : State) (data : Draft) : outcome Draft :=
  if uploadedImageUrl s =? ""
  then Prompt "Please wait for the image to finish uploading"
  else Submitted data.

Definition handleSaveTransfer (s : State) : outcome Draft :=
  if negb (hasValidated s) || negb (validationSuccess s)
  then Prompt "Please validate the form first"
  else onSubmit s (values s).

End Workflow.

End TransferForm.

(** ** Sample drafts *)

Fixpoint copies (n : nat) (c : ascii) : string :=
  match n with
  | O => ""
  | S k => String c (copies k c)
  end.

(** The valid tour of the spec's concrete scenario. *)
Definition sample_tour : Tour.Draft := {|
  Tour.title := Some (copies 25 "x");
  Tour.slug := Some "";
  Tour.image := Some "https://example.com/i.jpg";
  Tour.tags := ["Full-Day"];
  Tour.description := Some (copies 60 "y");
  Tour.type := Some "co-tour";
  Tour.duration := Some "4";
  Tour.period := Some "Half-Day";
  Tour.bookedCount := Some (Num 0);
  Tour.oldPrice := Some (Num 100);
  Tour.newPrice := Some (Num 80);
  Tour.childPrice := Some (Num 40);
  Tour.minimumPerson := Some (Num 2);
  Tour.maximumPerson := Some (Num 10);
  Tour.vehicle := Some "";
  Tour.seatCapacity := None;
  Tour.departureTimes := ["08:00"];
  Tour.label := Some "None";
  Tour.details := {|
    Tour.about := Some ("<p>" ++ copies 100 "a" ++ "</p>");
    Tour.itinerary := Some ("<p>" ++ copies 100 "b" ++ "</p>");
    Tour.pickupLocation := Some "<p>Hotel lobby, Tanah Rata</p>";
    Tour.pickupGuidelines := Some "";
    Tour.note := Some "<p>Bring a jacket.</p>";
    Tour.faq := [ {| question := "Q"; answer := "A" |} ] |} |}.

Definition sample_tour_edit : TourEdit.Draft := {|
  TourEdit.title := Some (copies 25 "x");
  TourEdit.slug := Some "";
  TourEdit.image := Some "https://example.com/i.jpg";
  TourEdit.tags := ["Full-Day"];
  TourEdit.description := Some (copies 60 "y");
  TourEdit.type := Some "co-tour";
  TourEdit.duration := Some "4";
  TourEdit.period := Some "Half-Day";
  TourEdit.bookedCount := Some (Num 0);
  TourEdit.rating := None;
  TourEdit.reviewCount := None;
  TourEdit.oldPrice := Some (Num 100);
  TourEdit.newPrice := Some (Num 80);
  TourEdit.childPrice := Some (Num 40);
  TourEdit.minimumPerson := Some (Num 2);
  TourEdit.maximumPerson := Some (Num 10);
  TourEdit.vehicle := Some "";
  TourEdit.seatCapacity := None;
  TourEdit.departureTimes := ["08:00"];
  TourEdit.label := Some "None";
  TourEdit.details := {|
    TourEdit.about := Some (copies 100 "a");
    TourEdit.itinerary := Some (copies 50 "b");
    TourEdit.pickupLocations := ["Hotel lobby"];
    TourEdit.pickupGuidelines := None;
    TourEdit.notes := ["Bring a jacket"];
    TourEdit.includes := ["Guide"];
    TourEdit.faq := [ {| question := "Q"; answer := "A" |} ] |} |}.

Definition sample_transfer : Transfer.Draft := {|
  Transfer.title := Some (copies 25 "x");
  Transfer.slug := Some "";
  Transfer.image := Some "https://example.com/i.jpg";
  Transfer.tags := ["Van"];
  Transfer.description := Some (copies 60 "y");
  Transfer.type := Some "Van";
  Transfer.vehicle := Some "";
  Transfer.from := Some "Tanah Rata";
  Transfer.to := Some "Kuala Lumpur";
  Transfer.duration := Some "4";
  Transfer.bookedCount := Some (Num 0);
  Transfer.rating := Some (Num 0);
  Transfer.reviewCount := Some (Num 0);
  Transfer.oldPrice := Some (Num 100);
  Transfer.newPrice := Some (Num 80);
  Transfer.childPrice := Some (Num 40);
  Transfer.minimumPerson := Some (Num 1);
  Transfer.maximumPerson := Some (Num 10);
  Transfer.seatCapacity := Some (Num 4);
  Transfer.departureTimes := ["08:00"];
  Transfer.label := Some "None";
  Transfer.details := {|
    Transfer.about := Some ("<p>" ++ copies 100 "a" ++ "</p>");
    Transfer.itinerary := Some ("<p>" ++ copies 100 "b" ++ "</p>");
    Transfer.pickupOption := Some "admin";
    Transfer.pickupLocation := Some "<p>Hotel lobby, Tanah Rata</p>";
    Transfer.dropOffLocation := Some "";
    Transfer.pickupGuidelines := Some "<p>Be there ten minutes early.</p>";
    Transfer.note := Some "<p>Bring a jacket.</p>";
    Transfer.faq := [ {| question := "Q"; answer := "A" |} ] |} |}.

Definition sample_tour_edit_private : TourEdit.Draft := {|
  TourEdit.title := Some (copies 25 "x");
  TourEdit.slug := Some "";
  TourEdit.image := Some "https://example.com/i.jpg";
  TourEdit.tags := ["Full-Day"];
  TourEdit.description := Some (copies 60 "y");
  TourEdit.type := Some "private";
  TourEdit.duration := Some "4";
  TourEdit.period := Some "Half-Day";
  TourEdit.bookedCount := Some (Num 0);
  TourEdit.rating := None;
  TourEdit.reviewCount := None;
  TourEdit.oldPrice := Some (Num 100);
  TourEdit.newPrice := Some (Num 80);
  TourEdit.childPrice := Some (Num 40);
  TourEdit.minimumPerson := Some (Num 1);
  TourEdit.maximumPerson := Some (Num 1);
  TourEdit.vehicle := Some "Toyota Alphard";
  TourEdit.seatCapacity := Some (Num 6);
  TourEdit.departureTimes := ["08:00"];
  TourEdit.label := Some "None";
  TourEdit.details := TourEdit.details sample_tour_edit |}.

(** [setValue] on the fields that the examples below change. *)
Definition tour_set_numbers (bookedCount oldPrice newPrice minimumPerson maximumPerson : option jsnum)
  (d : Tour.Draft) : Tour.Draft := {|
  Tour.title := Tour.title d; Tour.slug := Tour.slug d; Tour.image := Tour.image d;
  Tour.tags := Tour.tags d; Tour.description := Tour.description d;
  Tour.type := Tour.type d; Tour.duration := Tour.duration d;
  Tour.period := Tour.period d; Tour.bookedCount := bookedCount;
  Tour.oldPrice := oldPrice; Tour.newPrice := newPrice;
  Tour.childPrice := Tour.childPrice d; Tour.minimumPerson := minimumPerson;
  Tour.maximumPerson := maximumPerson; Tour.vehicle := Tour.vehicle d;
  Tour.seatCapacity := Tour.seatCapacity d;
  Tour.departureTimes := Tour.departureTimes d; Tour.label := Tour.label d;
  Tour.details := Tour.details d |}.

Definition tour_set_title (title : option string) (d : Tour.Draft) : Tour.Draft := {|
  Tour.title := title; Tour.slug := Tour.slug d; Tour.image := Tour.image d;
  Tour.tags := Tour.tags d; Tour.description := Tour.description d;
  Tour.type := Tour.type d; Tour.duration := Tour.duration d;
  Tour.period := Tour.period d; Tour.bookedCount := Tour.bookedCount d;
  Tour.oldPrice := Tour.oldPrice d; Tour.newPrice := Tour.newPrice d;
  Tour.childPrice := Tour.childPrice d; Tour.minimumPerson := Tour.minimumPerson d;
  Tour.maximumPerson := Tour.maximumPerson d; Tour.vehicle := Tour.vehicle d;
  Tour.seatCapacity := Tour.seatCapacity d;
  Tour.departureTimes := Tour.departureTimes d; Tour.label := Tour.label d;
  Tour.details := Tour.details d |}.

Definition tour_set_faq (faq : list Faq) (d : Tour.Draft) : Tour.Draft := {|
  Tour.title := Tour.title d; Tour.slug := Tour.slug d; Tour.image := Tour.image d;
  Tour.tags := Tour.tags d; Tour.description := Tour.description d;
  Tour.type := Tour.type d; Tour.duration := Tour.duration d;
  Tour.period := Tour.period d; Tour.bookedCount := Tour.bookedCount d;
  Tour.oldPrice := Tour.oldPrice d; Tour.newPrice := Tour.newPrice d;
  Tour.childPrice := Tour.childPrice d; Tour.minimumPerson := Tour.minimumPerson d;
  Tour.maximumPerson := Tour.maximumPerson d; Tour.vehicle := Tour.vehicle d;
  Tour.seatCapacity := Tour.seatCapacity d;
  Tour.departureTimes := Tour.departureTimes d; Tour.label := Tour.label d;
  Tour.details := {|
    Tour.about := Tour.about (Tour.details d);
    Tour.itinerary := Tour.itinerary (Tour.details d);
    Tour.pickupLocation := Tour.pickupLocation (Tour.details d);
    Tour.pickupGuidelines := Tour.pickupGuidelines (Tour.details d);
    Tour.note := Tour.note (Tour.details d);
    Tour.faq := faq |} |}.

Definition edit_set_description (description : option string) (d : TourEdit.Draft)
  : TourEdit.Draft := {|
  TourEdit.title := TourEdit.title d; TourEdit.slug := TourEdit.slug d;
  TourEdit.image := TourEdit.image d; TourEdit.tags := TourEdit.tags d;
  TourEdit.description := description; TourEdit.type := TourEdit.type d;
  TourEdit.duration := TourEdit.duration d; TourEdit.period := TourEdit.period d;
  TourEdit.bookedCount := TourEdit.bookedCount d; TourEdit.rating := TourEdit.rating d;
  TourEdit.reviewCount := TourEdit.reviewCount d; TourEdit.oldPrice := TourEdit.oldPrice d;
  TourEdit.newPrice := TourEdit.newPrice d; TourEdit.childPrice := TourEdit.childPrice d;
  TourEdit.minimumPerson := TourEdit.minimumPerson d;
  TourEdit.maximumPerson := TourEdit.maximumPerson d;
  TourEdit.vehicle := TourEdit.vehicle d; TourEdit.seatCapacity := TourEdit.seatCapacity d;
  TourEdit.departureTimes := TourEdit.departureTimes d; TourEdit.label := TourEdit.label d;
  TourEdit.details := TourEdit.details d |}.

Definition transfer_set_details (pickupLocation pickupGuidelines : option string)
  (faq : list Faq) (d : Transfer.Details) : Transfer.Details := {|
  Transfer.about := Transfer.about d; Transfer.itinerary := Transfer.itinerary d;
  Transfer.pickupOption := Transfer.pickupOption d;
  Transfer.pickupLocation := pickupLocation;
  Transfer.dropOffLocation := Transfer.dropOffLocation d;
  Transfer.pickupGuidelines := pickupGuidelines;
  Transfer.note := Transfer.note d; Transfer.faq := faq |}.

(** The type, the vehicle, the rating and the details of a transfer. *)
Definition transfer_set (type vehicle : option string) (rating : option jsnum)
  (details : Transfer.Details) (d : Transfer.Draft) : Transfer.Draft := {|
  Transfer.title := Transfer.title d; Transfer.slug := Transfer.slug d;
  Transfer.image := Transfer.image d; Transfer.tags := Transfer.tags d;
  Transfer.description := Transfer.description d; Transfer.type := type;
  Transfer.vehicle := vehicle; Transfer.from := Transfer.from d;
  Transfer.to := Transfer.to d; Transfer.duration := Transfer.duration d;
  Transfer.bookedCount := Transfer.bookedCount d; Transfer.rating := rating;
  Transfer.reviewCount := Transfer.reviewCount d; Transfer.oldPrice := Transfer.oldPrice d;
  Transfer.newPrice := Transfer.newPrice d; Transfer.childPrice := Transfer.childPrice d;
  Transfer.minimumPerson := Transfer.minimumPerson d;
  Transfer.maximumPerson := Transfer.maximumPerson d;
  Transfer.seatCapacity := Transfer.seatCapacity d;
  Transfer.departureTimes := Transfer.departureTimes d; Transfer.label := Transfer.label d;
  Transfer.details := details |}.

(** ** The validator of a page

    A draft together with the page that validates it. *)

Inductive PackageDraft : Type :=
| TourCreation : Tour.Draft -> PackageDraft
| TourEdition : TourEdit.Draft -> PackageDraft
| TransferCreation : Transfer.Draft -> PackageDraft.

Definition is_tour (d : PackageDraft) : bool :=
  match d with
  | TourCreation _ | TourEdition _ => true
  | TransferCreation _ => false
  end.

Section Validator.

Variable stripHtmlTags : string -> string.

(** The parse of the fields alone, before any object refinement. *)
Definition fields (d : PackageDraft) : result :=
  match d with
  | TourCreation data => Tour.tourObject stripHtmlTags data
  | TourEdition data => TourEdit.tourObject data
  | TransferCreation data => Transfer.transferObject stripHtmlTags data
  end.

(** The schema of the page. *)
Definition schema (d : PackageDraft) : result :=
  match d with
  | TourCreation data => Tour.tourSchema stripHtmlTags data
  | TourEdition data => TourEdit.tourSchema data
  | TransferCreation data => Transfer.transferSchema stripHtmlTags data
  end.

(** The error set of a validation. *)
Definition validate (d : PackageDraft) : list issue := issues (schema d).

End Validator.

Definition crossField (d : PackageDraft) : list issue :=
  match d with
  | TourCreation _ => Tour.crossField
  | TourEdition _ => TourEdit.crossField
  | TransferCreation _ => Transfer.crossField
  end.

Definition newPrice (d : PackageDraft) : option jsnum :=
  match d with
  | TourCreation data => Tour.newPrice data
  | TourEdition data => TourEdit.newPrice data
  | TransferCreation data => Transfer.newPrice data
  end.

Definition oldPrice (d : PackageDraft) : option jsnum :=
  match d with
  | TourCreation data => Tour.oldPrice data
  | TourEdition data => TourEdit.oldPrice data
  | TransferCreation data => Transfer.oldPrice data
  end.

Definition type (d : PackageDraft) : option string :=
  match d with
  | TourCreation data => Tour.type data
  | TourEdition data => TourEdit.type data
  | TransferCreation data => Transfer.type data
  end.

Definition minimumPerson (d : PackageDraft) : option jsnum :=
  match d with
  | TourCreation data => Tour.minimumPerson data
  | TourEdition data => TourEdit.minimumPerson data
  | TransferCreation data => Transfer.minimumPerson data
  end.

Definition maximumPerson (d : PackageDraft) : option jsnum :=
  match d with
  | TourCreation data => Tour.maximumPerson data
  | TourEdition data => TourEdit.maximumPerson data
  | TransferCreation data => Transfer.maximumPerson data
  end.

Definition description (d : PackageDraft) : option string :=
  match d with
  | TourCreation data => Tour.description data
  | TourEdition data => TourEdit.description data
  | TransferCreation data => Transfer.description data
  end.

(** ** Where an issue comes from

    [from_field p msgs i]: the issue [i] sits at [p] with one of the messages
    [msgs], or strictly below [p]. *)

Definition from_field (p : path) (msgs : list string) (i : issue) : Prop :=
  exists q, ipath i = (p ++ q)%list /\ (q = [] -> In (message i) msgs).

Definition check_message (c : string_check) : string :=
  match c with
  | min_len _ msg | max_len _ msg | regex _ msg => msg
  end.

Definition number_check_message (c : number_check) : string :=
  match c with
  | min_num _ msg | max_num _ msg => msg
  end.

Definition slug_messages : list string :=
  [ "Required"; "Slug can only contain lowercase letters, numbers and hyphens";
    "Invalid literal value"; "Invalid input" ].

(** A parse is valid exactly when it raised no issue. *)
Definition sound (r : result) : Prop := st r = valid <-> issues r = [].

(** The price rule of the page, and the largest description it accepts. *)
Definition price_rule (d : PackageDraft) : bool :=
  match d with
  | TourCreation data => Tour.price_rule data
  | TourEdition data => TourEdit.price_rule data
  | TransferCreation data => Transfer.price_rule data
  end.

Definition description_max (d : PackageDraft) : nat :=
  match d with
  | TourEdition _ => 200
  | TourCreation _ | TransferCreation _ => 110
  end.

(** The issues of the refinements of the page that fail on the draft. *)
Definition failing (d : PackageDraft) : list issue :=
  match d with
  | TourCreation data => failed Tour.refinements data
  | TourEdition data => failed TourEdit.refinements data
  | TransferCreation data => failed Transfer.refinements data
  end.

(** ** Values of the wrong type

    What makes the parse of a field abort: a required value that is missing,
    a numeric field that is [NaN] (or missing, when it is required), an enum
    field that holds a string outside its enum. *)

Definition missing {A : Type} (v : option A) : bool := negb (defined v).

Definition not_a_number (v : option jsnum) : bool :=
  match v with
  | Some (Num _) => false
  | Some NaN | None => true
  end.

Definition is_nan (v : option jsnum) : bool :=
  match v with
  | Some NaN => true
  | Some (Num _) | None => false
  end.

Definition outside (values : list string) (v : option string) : bool :=
  match v with
  | Some s => negb (mem s values)
  | None => true
  end.

Definition ill_typed (d : PackageDraft) : bool :=
  match d with
  | TourCreation data =>
      missing (Tour.title data) || missing (Tour.image data)
      || missing (Tour.description data)
      || outside ["co-tour"; "private"] (Tour.type data)
      || missing (Tour.duration data)
      || outside ["Half-Day"; "Full-Day"] (Tour.period data)
      || not_a_number (Tour.bookedCount data) || not_a_number (Tour.oldPrice data)
      || not_a_number (Tour.newPrice data) || not_a_number (Tour.childPrice data)
      || not_a_number (Tour.minimumPerson data)
      || not_a_number (Tour.maximumPerson data)
      || is_nan (Tour.seatCapacity data)
      || outside ["Recommended"; "Popular"; "Best Value"; "Best seller"; "None"]
           (Tour.label data)
      || missing (Tour.about (Tour.details data))
      || missing (Tour.itinerary (Tour.details data))
      || missing (Tour.pickupLocation (Tour.details data))
      || missing (Tour.pickupGuidelines (Tour.details data))
      || missing (Tour.note (Tour.details data))
  | TourEdition data =>
      missing (TourEdit.title data) || missing (TourEdit.image data)
      || missing (TourEdit.description data)
      || outside ["co-tour"; "private"] (TourEdit.type data)
      || missing (TourEdit.duration data)
      || outside ["Half-Day"; "Full-Day"] (TourEdit.period data)
      || not_a_number (TourEdit.bookedCount data)
      || is_nan (TourEdit.rating data) || is_nan (TourEdit.reviewCount data)
      || not_a_number (TourEdit.oldPrice data) || not_a_number (TourEdit.newPrice data)
      || not_a_number (TourEdit.childPrice data)
      || not_a_number (TourEdit.minimumPerson data)
      || not_a_number (TourEdit.maximumPerson data)
      || is_nan (TourEdit.seatCapacity data)
      || outside ["Recommended"; "Popular"; "Best Value"; "Best Seller"; "None"]
           (TourEdit.label data)
      || missing (TourEdit.about (TourEdit.details data))
      || missing (TourEdit.itinerary (TourEdit.details data))
  | TransferCreation data =>
      missing (Transfer.title data) || missing (Transfer.image data)
      || missing (Transfer.description data)
      || outside ["Van"; "Van + Ferry"; "Private"] (Transfer.type data)
      || missing (Transfer.from data) || missing (Transfer.to data)
      || missing (Transfer.duration data)
      || not_a_number (Transfer.bookedCount data)
      || is_nan (Transfer.rating data) || is_nan (Transfer.reviewCount data)
      || not_a_number (Transfer.oldPrice data) || not_a_number (Transfer.newPrice data)
      || is_nan (Transfer.childPrice data)
      || is_nan (Transfer.minimumPerson data)
      || is_nan (Transfer.maximumPerson data)
      || not_a_number (Transfer.seatCapacity data)
      || outside ["Recommended"; "Popular"; "Best Value"; "Best seller"; "None"]
           (Transfer.label data)
      || missing (Transfer.about (Transfer.details data))
      || missing (Transfer.itinerary (Transfer.details data))
      || outside ["admin"; "user"] (Transfer.pickupOption (Transfer.details data))
      || missing (Transfer.pickupGuidelines (Transfer.details data))
      || missing (Transfer.note (Transfer.details data))
  end.

Definition abortedb (r : result) : bool :=
  match st r with
  | aborted => true
  | valid | dirty => false
  end.

(** ** The handlers of the list fields

    [addTag] of the creation pages: the tag list of the form ([field.value],
    a list from the default values on) and the text of the tag input; the
    result is the new list, the new input text and the toast, if any. *)

Definition addTag (newTag : string) (value : list string)
  : list string * string * option string :=
  if negb (trim newTag =? "") && negb (mem (trim newTag) value)
  then ((value ++ [trim newTag])%list, "", None)
  else if mem (trim newTag) value
       then (value, newTag, Some "Tag already exists")
       else if trim newTag =? ""
            then (value, newTag, Some "Please enter a tag name")
            else (value, newTag, None).

(** [splice(index, 1)] on a copy, and [filter((_, i) => i !== index)]. *)
Fixpoint remove_at {A : Type} (index : nat) (l : list A) : list A :=
  match l, index with
  | [], _ => []
  | _ :: r, O => r
  | x :: r, S k => x :: remove_at k r
  end.

(** [copy[index] = v] for the index of a rendered row. *)
Fixpoint set_at {A : Type} (index : nat) (v : A) (l : list A) : list A :=
  match l, index with
  | [], _ => []
  | _ :: r, O => v :: r
  | x :: r, S k => x :: set_at k v r
  end.

(** What the tag widget can do to the list: the add button (or Enter) with
    some input text, and the cross of the tag at [index]. *)
Inductive tag_event : Type :=
| AddTag : string -> tag_event
| RemoveTag : nat -> tag_event.

Definition tag_step (value : list string) (e : tag_event) : list string :=
  match e with
  | AddTag newTag => fst (fst (addTag newTag value))
  | RemoveTag index => remove_at index value
  end.

(** What the departure-time widget of the creation pages can do: edit the
    time of a row, remove a row (the button is rendered only while there is
    more than one row), add a row. *)
Inductive time_event : Type :=
| SetTime : nat -> string -> time_event
| RemoveTime : nat -> time_event
| AddTime : time_event.

Definition time_step (value : list string) (e : time_event) : list string :=
  match e with
  | SetTime index v => set_at index v value
  | RemoveTime index =>
      if (1 <? List.length value)%nat then remove_at index value else value
  | AddTime => (value ++ ["08:00"])%list
  end.

(** [v || ""] on a string that may be [undefined]. *)
Definition or_empty (v : option string) : string :=
  match v with
  | Some s => s
  | None => ""
  end.

(** ** The rest of the tour creation page *)

Module TourPage.

Import Tour.

Definition defaultValues : Draft := {|
  title := None; slug := None; image := None; tags := [];
  description := None; type := Some "co-tour"; duration := None;
  period := Some "Half-Day"; bookedCount := Some (Num 0);
  oldPrice := Some (Num 0); newPrice := Some (Num 0); childPrice := Some (Num 0);
  minimumPerson := Some (Num 1); maximumPerson := Some (Num 10);
  vehicle := Some ""; seatCapacity := Some (Num 4);
  departureTimes := ["08:00"]; label := Some "None";
  details := {| about := Some ""; itinerary := Some ""; pickupLocation := Some "";
                pickupGuidelines := Some ""; note := Some "";
                faq := [ {| question := ""; answer := "" |} ] |} |}.

Definition set_vehicle (v : option string) (seats : option jsnum) (d : Draft) : Draft := {|
  title := title d; slug := slug d; image := image d; tags := tags d;
  description := description d; type := type d; duration := duration d;
  period := period d; bookedCount := bookedCount d; oldPrice := oldPrice d;
  newPrice := newPrice d; childPrice := childPrice d;
  minimumPerson := minimumPerson d; maximumPerson := maximumPerson d;
  vehicle := v; seatCapacity := seats;
  departureTimes := departureTimes d; label := label d; details := details d |}.

Definition set_minimumPerson (n : option jsnum) (d : Draft) : Draft := {|
  title := title d; slug := slug d; image := image d; tags := tags d;
  description := description d; type := type d; duration := duration d;
  period := period d; bookedCount := bookedCount d; oldPrice := oldPrice d;
  newPrice := newPrice d; childPrice := childPrice d;
  minimumPerson := n; maximumPerson := maximumPerson d;
  vehicle := vehicle d; seatCapacity := seatCapacity d;
  departureTimes := departureTimes d; label := label d; details := details d |}.

(** The two effects on [watchType]: a tour that is not private loses its
    vehicle and seat capacity, a private tour gets a minimum of one person. *)
Definition type_effects (d : Draft) : Draft :=
  let d1 := if negb (str_is (type d) "private")
            then set_vehicle (Some "") None d else d in
  if str_is (type d1) "private" then set_minimumPerson (Some (Num 1)) d1 else d1.

(** The body of the request that [onSubmit] posts. *)
Record Payload : Type := {
  body : Draft;
  packageType : string
}.

Definition onSubmit (data : Draft) : Payload :=
  let validFaqs := validFaqs (faq (details data)) in
  {| body := tour_set_faq validFaqs data; packageType := "tour" |}.

Definition handleClearForm (s : TourForm.State) : TourForm.State :=
  {| TourForm.values := defaultValues;
     TourForm.hasValidated := false;
     TourForm.validationSuccess := false;
     TourForm.showValidationErrors := false |}.

(** What happens on the page, as far as the form values and the validation
    flags go: a change of the values (an input, [setValue]), the validate
    button, the confirmed clear button.  An event is taken to end before the
    next one begins. *)
Inductive event : Type :=
| Change : Draft -> event
| Validate : event
| Clear : event.

Definition initial : TourForm.State :=
  {| TourForm.values := defaultValues;
     TourForm.hasValidated := false;
     TourForm.validationSuccess := false;
     TourForm.showValidationErrors := false |}.

Section Events.

Variable stripHtmlTags : string -> string.

Definition step (s : TourForm.State) (e : event) : TourForm.State :=
  match e with
  | Change data => TourForm.field_change data s
  | Validate => TourForm.handleShowErrors stripHtmlTags s
  | Clear => handleClearForm s
  end.

Definition run (events : list event) : TourForm.State :=
  fold_left step events initial.

(** The save button after some events: the request body, if one is sent. *)
Definition save (events : list event) : outcome Payload :=
  match TourForm.handleSaveTour (run events) with
  | Prompt msg => Prompt msg
  | Submitted data => Submitted (onSubmit data)
  end.

End Events.

End TourPage.

(** ** The rest of the tour edit page *)

Module EditPage.

Import TourEdit.

(** [addTag] of the edit page: a blank input gives no toast. *)
Definition addTag (newTag : string) (value : list string)
  : list string * string * option string :=
  if negb (trim newTag =? "") && negb (mem (trim newTag) value)
  then ((value ++ [trim newTag])%list, "", None)
  else if mem (trim newTag) value
       then (value, newTag, Some "Tag already exists")
       else (value, newTag, None).

Definition non_blank (s : string) : bool := negb (trim s =? "").

Record Payload : Type := {
  body : Draft;
  packageType : string
}.

Definition onSubmit (data : Draft) : Payload :=
  {| body := {|
       title := title data; slug := slug data; image := image data;
       tags := tags data; description := description data; type := type data;
       duration := duration data; period := period data;
       bookedCount := bookedCount data; rating := rating data;
       reviewCount := reviewCount data; oldPrice := oldPrice data;
       newPrice := newPrice data; childPrice := childPrice data;
       minimumPerson := minimumPerson data; maximumPerson := maximumPerson data;
       vehicle := vehicle data; seatCapacity := seatCapacity data;
       departureTimes := departureTimes data; label := label data;
       details := {|
         about := about (details data);
         itinerary := itinerary (details data);
         pickupLocations := filter non_blank (pickupLocations (details data));
         pickupGuidelines := pickupGuidelines (details data);
         notes := filter non_blank (notes (details data));
         includes := filter non_blank (includes (details data));
         faq := validFaqs (faq (details data)) |} |};
     packageType := "tour" |}.

(** [handleSubmit(onSubmit)]: the resolver runs first and [onSubmit] is
    called only on an empty error set. *)
Definition handleSubmit (data : Draft) : option Payload :=
  match errors data with
  | [] => Some (onSubmit data)
  | _ :: _ => None
  end.

End EditPage.

(** ** The rest of the transfer creation page *)

Module TransferPage.

Import Transfer.

Definition defaultValues : Draft := {|
  title := None; slug := None; image := None; tags := [];
  description := None; type := Some "Van"; vehicle := Some "";
  from := Some ""; to := Some ""; duration := None;
  bookedCount := Some (Num 0); rating := Some (Num 0); reviewCount := Some (Num 0);
  oldPrice := Some (Num 0); newPrice := Some (Num 0); childPrice := Some (Num 0);
  minimumPerson := Some (Num 1); maximumPerson := Some (Num 10);
  seatCapacity := Some (Num 4); departureTimes := ["08:00"]; label := Some "None";
  details := {| about := Some ""; itinerary := Some "";
                pickupOption := Some "admin"; pickupLocation := Some "";
                dropOffLocation := Some ""; pickupGuidelines := Some "";
                note := Some ""; faq := [ {| question := ""; answer := "" |} ] |} |}.

Definition set_minimumPerson (n : option jsnum) (d : Draft) : Draft := {|
  title := title d; slug := slug d; image := image d; tags := tags d;
  description := description d; type := type d; vehicle := vehicle d;
  from := from d; to := to d; duration := duration d;
  bookedCount := bookedCount d; rating := rating d; reviewCount := reviewCount d;
  oldPrice := oldPrice d; newPrice := newPrice d; childPrice := childPrice d;
  minimumPerson := n; maximumPerson := maximumPerson d;
  seatCapacity := seatCapacity d; departureTimes := departureTimes d;
  label := label d; details := details d |}.

Definition set_image (url : option string) (d : Draft) : Draft := {|
  title := title d; slug := slug d; image := url; tags := tags d;
  description := description d; type := type d; vehicle := vehicle d;
  from := from d; to := to d; duration := duration d;
  bookedCount := bookedCount d; rating := rating d; reviewCount := reviewCount d;
  oldPrice := oldPrice d; newPrice := newPrice d; childPrice := childPrice d;
  minimumPerson := minimumPerson d; maximumPerson := maximumPerson d;
  seatCapacity := seatCapacity d; departureTimes := departureTimes d;
  label := label d; details := details d |}.

(** The two effects on [watchType]: a transfer that is not Private loses its
    vehicle, a Private transfer gets a minimum of one person. *)
Definition type_effects (d : Draft) : Draft :=
  let d1 := if negb (str_is (type d) "Private")
            then transfer_set (type d) (Some "") (rating d) (details d) d else d in
  if str_is (type d1) "Private" then set_minimumPerson (Some (Num 1)) d1 else d1.

(** The body of the request of [onSubmit]: the fields that it computes, and
    in [rest] the form values, which it spreads for the other fields. *)
Record Payload : Type := {
  rest : Draft;
  payload_image : string;
  desc : option string;
  times : list string;
  payload_vehicle : string;
  payload_seatCapacity : option jsnum;
  payload_faq : list Faq;
  pickupLocations : string;
  payload_pickupGuidelines : option string;
  dropOffLocations : string
}.

Definition finalTransferData (uploadedImageUrl : string) (data : Draft) : Payload :=
  let admin := str_is (pickupOption (details data)) "admin" in
  {| rest := data;
     payload_image := uploadedImageUrl;
     desc := description data;
     times := departureTimes data;
     payload_vehicle := or_empty (vehicle data);
     payload_seatCapacity :=
       if truthy_num (seatCapacity data) then seatCapacity data else None;
     payload_faq := validFaqs (faq (details data));
     pickupLocations :=
       if admin
       then or_empty (pickupLocation (details data))
       else or_empty (pickupGuidelines (details data));
     payload_pickupGuidelines :=
       if admin then Some (or_empty (pickupGuidelines (details data))) else None;
     dropOffLocations := or_empty (dropOffLocation (details data)) |}.

Definition confirmClearForm (s : TransferForm.State) : TransferForm.State :=
  {| TransferForm.values := defaultValues;
     TransferForm.uploadedImageUrl := "";
     TransferForm.hasValidated := false;
     TransferForm.validationSuccess := false;
     TransferForm.showValidationErrors := TransferForm.showValidationErrors s |}.

(** The two ends of [handleImageUpload]: the URL of the server is stored and
    written to the image field, or the stored URL is cleared. *)
Definition upload_succeeded (url : string) (s : TransferForm.State) : TransferForm.State :=
  let s' := TransferForm.field_change (set_image (Some url) (TransferForm.values s)) s in
  {| TransferForm.values := TransferForm.values s';
     TransferForm.uploadedImageUrl := url;
     TransferForm.hasValidated := TransferForm.hasValidated s';
     TransferForm.validationSuccess := TransferForm.validationSuccess s';
     TransferForm.showValidationErrors := TransferForm.showValidationErrors s' |}.

Definition upload_failed (s : TransferForm.State) : TransferForm.State :=
  {| TransferForm.values := TransferForm.values s;
     TransferForm.uploadedImageUrl := "";
     TransferForm.hasValidated := TransferForm.hasValidated s;
     TransferForm.validationSuccess := TransferForm.validationSuccess s;
     TransferForm.showValidationErrors := TransferForm.showValidationErrors s |}.

Inductive event : Type :=
| Change : Draft -> event
| Validate : event
| Clear : event
| Uploaded : string -> event
| UploadFailed : event.

Definition initial : TransferForm.State :=
  {| TransferForm.values := defaultValues;
     TransferForm.uploadedImageUrl := "";
     TransferForm.hasValidated := false;
     TransferForm.validationSuccess := false;
     TransferForm.showValidationErrors := false |}.

Section Events.

Variable stripHtmlTags : string -> string.

Definition step (s : TransferForm.State) (e : event) : TransferForm.State :=
  match e with
  | Change data => TransferForm.field_change data s
  | Validate => TransferForm.handleShowErrors stripHtmlTags s
  | Clear => confirmClearForm s
  | Uploaded url => upload_succeeded url s
  | UploadFailed => upload_failed s
  end.

Definition run (events : list event) : TransferForm.State :=
  fold_left step events initial.

(** The save button after some events: the request body, if one is sent. *)
Definition save (events : list event) : outcome Payload :=
  let s := run events in
  match TransferForm.handleSaveTransfer s with
  | Prompt msg => Prompt msg
  | Submitted data => Submitted (finalTransferData (TransferForm.uploadedImageUrl s) data)
  end.

End Events.

End TransferPage.

(** ** Shapes of strings *)

Definition starts_with (p : ascii -> bool) (s : string) : bool :=
  match s with
  | "" => false
  | String c _ => p c
  end.

Fixpoint ends_with (p : ascii -> bool) (s : string) : bool :=
  match s with
  | "" => false
  | String c "" => p c
  | String _ r => ends_with p r
  end.

(** Two characters of the class [p] in a row, somewhere in [s]. *)
Fixpoint has_double (p : ascii -> bool) (s : string) : bool :=
  match s with
  | "" => false
  | String c r => (p c && starts_with p r) || has_double p r
  end.

Definition is_alnum (c : ascii) : bool := is_lower c || is_digit c.

(** No lowercase letter and no digit in [s]. *)
Definition no_alnum (s : string) : bool :=
  all_chars (fun c => negb (is_alnum c)) s.

(** A tag as [addTag] stores it: not empty, with no space around. *)
Definition clean (t : string) : Prop := t <> "" /\ trim t = t.

(** Whether the person rule is waived: a private tour, a Private transfer. *)
Definition is_private (d : PackageDraft) : bool :=
  match d with
  | TourCreation data => str_is (Tour.type data) "private"
  | TourEdition data => str_is (TourEdit.type data) "private"
  | TransferCreation data => str_is (Transfer.type data) "Private"
  end.

Definition label (d : PackageDraft) : option string :=
  match d with
  | TourCreation data => Tour.label data
  | TourEdition data => TourEdit.label data
  | TransferCreation data => Transfer.label data
  end.

(** Every refinement of the page holds on the draft. *)
Definition refinements_hold (d : PackageDraft) : bool :=
  match d with
  | TourCreation data => forallb (fun r => holds r data) Tour.refinements
  | TourEdition data => forallb (fun r => holds r data) TourEdit.refinements
  | TransferCreation data => forallb (fun r => holds r data) Transfer.refinements
  end.

Definition childPrice (d : PackageDraft) : option jsnum :=
  match d with
  | TourCreation data => Tour.childPrice data
  | TourEdition data => TourEdit.childPrice data
  | TransferCreation data => Transfer.childPrice data
  end.

(** A private tour with its vehicle, and a transfer that ends where it
    starts. *)
Definition sample_tour_private : Tour.Draft :=
  TourPage.set_minimumPerson (Some (Num 1))
    (TourPage.set_vehicle (Some "Toyota Alphard") (Some (Num 6))
       {| Tour.title := Tour.title sample_tour; Tour.slug := Tour.slug sample_tour;
          Tour.image := Tour.image sample_tour; Tour.tags := Tour.tags sample_tour;
          Tour.description := Tour.description sample_tour;
          Tour.type := Some "private";
          Tour.duration := Tour.duration sample_tour;
          Tour.period := Tour.period sample_tour;
          Tour.bookedCount := Tour.bookedCount sample_tour;
          Tour.oldPrice := Tour.oldPrice sample_tour;
          Tour.newPrice := Tour.newPrice sample_tour;
          Tour.childPrice := Tour.childPrice sample_tour;
          Tour.minimumPerson := Tour.minimumPerson sample_tour;
          Tour.maximumPerson := Tour.maximumPerson sample_tour;
          Tour.vehicle := Tour.vehicle sample_tour;
          Tour.seatCapacity := Tour.seatCapacity sample_tour;
          Tour.departureTimes := Tour.departureTimes sample_tour;
          Tour.label := Tour.label sample_tour;
          Tour.details := Tour.details sample_tour |}).

Definition sample_round_trip : Transfer.Draft := {|
  Transfer.title := Transfer.title sample_transfer;
  Transfer.slug := Transfer.slug sample_transfer;
  Transfer.image := Transfer.image sample_transfer;
  Transfer.tags := Transfer.tags sample_transfer;
  Transfer.description := Transfer.description sample_transfer;
  Transfer.type := Transfer.type sample_transfer;
  Transfer.vehicle := Transfer.vehicle sample_transfer;
  Transfer.from := Some "Tanah Rata";
  Transfer.to := Some "TANAH RATA";
  Transfer.duration := Transfer.duration sample_transfer;
  Transfer.bookedCount := Transfer.bookedCount sample_transfer;
  Transfer.rating := Transfer.rating sample_transfer;
  Transfer.reviewCount := Transfer.reviewCount sample_transfer;
  Transfer.oldPrice := Transfer.oldPrice sample_transfer;
  Transfer.newPrice := Transfer.newPrice sample_transfer;
  Transfer.childPrice := Transfer.childPrice sample_transfer;
  Transfer.minimumPerson := Transfer.minimumPerson sample_transfer;
  Transfer.maximumPerson := Transfer.maximumPerson sample_transfer;
  Transfer.seatCapacity := Transfer.seatCapacity sample_transfer;
  Transfer.departureTimes := Transfer.departureTimes sample_transfer;
  Transfer.label := Transfer.label sample_transfer;
  Transfer.details := Transfer.details sample_transfer |}.

(** What the two flags promise, on each page: values that passed the schema
    with a complete FAQ and that agree on every dependency of the reset
    effect with the current values. *)
Definition tour_promise (strip : string -> string) (s : TourForm.State) : Prop :=
  TourForm.hasValidated s = true -> TourForm.validationSuccess s = true ->
  exists d0, validate strip (TourCreation d0) = []
             /\ validFaqs (Tour.faq (Tour.details d0)) <> []
             /\ TourForm.same_deps d0 (TourForm.values s) = true.

Definition transfer_promise (strip : string -> string) (s : TransferForm.State) : Prop :=
  TransferForm.hasValidated s = true -> TransferForm.validationSuccess s = true ->
  exists d0, validate strip (TransferCreation d0) = []
             /\ validFaqs (Transfer.faq (Transfer.details d0)) <> []
             /\ TransferForm.same_deps d0 (TransferForm.values s) = true.

(** The sample of the edit page with one FAQ entry whose answer is blank. *)
Definition sample_tour_edit_blank_faq : TourEdit.Draft := {|
  TourEdit.title := TourEdit.title sample_tour_edit;
  TourEdit.slug := TourEdit.slug sample_tour_edit;
  TourEdit.image := TourEdit.image sample_tour_edit;
  TourEdit.tags := TourEdit.tags sample_tour_edit;
  TourEdit.description := TourEdit.description sample_tour_edit;
  TourEdit.type := TourEdit.type sample_tour_edit;
  TourEdit.duration := TourEdit.duration sample_tour_edit;
  TourEdit.period := TourEdit.period sample_tour_edit;
  TourEdit.bookedCount := TourEdit.bookedCount sample_tour_edit;
  TourEdit.rating := TourEdit.rating sample_tour_edit;
  TourEdit.reviewCount := TourEdit.reviewCount sample_tour_edit;
  TourEdit.oldPrice := TourEdit.oldPrice sample_tour_edit;
  TourEdit.newPrice := TourEdit.newPrice sample_tour_edit;
  TourEdit.childPrice := TourEdit.childPrice sample_tour_edit;
  TourEdit.minimumPerson := TourEdit.minimumPerson sample_tour_edit;
  TourEdit.maximumPerson := TourEdit.maximumPerson sample_tour_edit;
  TourEdit.vehicle := TourEdit.vehicle sample_tour_edit;
  TourEdit.seatCapacity := TourEdit.seatCapacity sample_tour_edit;
  TourEdit.departureTimes := TourEdit.departureTimes sample_tour_edit;
  TourEdit.label := TourEdit.label sample_tour_edit;
  TourEdit.details := {|
    TourEdit.about := TourEdit.about (TourEdit.details sample_tour_edit);
    TourEdit.itinerary := TourEdit.itinerary (TourEdit.details sample_tour_edit);
    TourEdit.pickupLocations := ["Hotel lobby"];
    TourEdit.pickupGuidelines := None;
    TourEdit.notes := ["Bring a jacket"];
    TourEdit.includes := ["Guide"];
    TourEdit.faq := [ {| question := "Is lunch included?"; answer := "  " |} ] |} |}.

(** * Properties *)

(** ** The combinators *)


Lemma sound_OK : sound OK.
Proof. split; reflexivity. Qed.

Lemma sound_INVALID p msg : sound (INVALID p msg).
Proof. split; discriminate. Qed.

Lemma sound_check ok p msg : sound (check ok p msg).
Proof. destruct ok; split; simpl; congruence. Qed.

Lemma join_valid a b : join a b = valid <-> a = valid /\ b = valid.
Proof. destruct a, b; simpl; intuition congruence. Qed.

Lemma merge_cons r rs :
  merge (r :: rs) = Result (join (st r) (st (merge rs))) (issues r ++ issues (merge rs))%list.
Proof. reflexivity. Qed.

Lemma sound_merge rs : Forall sound rs -> sound (merge rs).
Proof.
  induction 1 as [|r rs Hr _ IH].
  - split; reflexivity.
  - rewrite merge_cons. unfold sound in *. cbn [st issues].
    rewrite join_valid. split.
    + intros [Ha Hb]. apply Hr in Ha. apply IH in Hb. rewrite Ha, Hb. reflexivity.
    + intros H. apply app_eq_nil in H. destruct H as [Ha Hb]. tauto.
Qed.

Lemma merge_issues_nil rs :
  issues (merge rs) = [] -> forall r, In r rs -> issues r = [].
Proof.
  induction rs as [|r0 rs IH]; intros H r Hin; [destruct Hin|].
  rewrite merge_cons in H. simpl in H. apply app_eq_nil in H.
  destruct H as [H0 H1]. destruct Hin as [<- | Hin]; auto.
Qed.

Lemma merge_issues_In rs i :
  In i (issues (merge rs)) <-> exists r, In r rs /\ In i (issues r).
Proof.
  induction rs as [|r0 rs IH].
  - simpl. split; [tauto | intros [r [[] _]]].
  - rewrite merge_cons. cbn [issues]. rewrite in_app_iff, IH. split.
    + intros [H | [r [Hin H]]]; [exists r0 | exists r]; simpl; auto.
    + intros [r [[<- | Hin] H]]; [left | right; exists r]; auto.
Qed.

Lemma Forall_map_sound {A : Type} (f : A -> result) (l : list A) :
  (forall x, sound (f x)) -> Forall sound (map f l).
Proof. intros H. induction l; simpl; constructor; auto. Qed.

Ltac each_member := repeat first [apply Forall_nil | apply Forall_cons].

Lemma sound_z_string checks p v : sound (z_string checks p v).
Proof.
  destruct v as [s|]; simpl; [|apply sound_INVALID].
  apply sound_merge, Forall_map_sound. intros [n m|n m|re m]; apply sound_check.
Qed.

Lemma sound_z_number checks p v : sound (z_number checks p v).
Proof.
  destruct v as [[|x]|]; simpl; try apply sound_INVALID.
  apply sound_merge, Forall_map_sound. intros [lo m|hi m]; apply sound_check.
Qed.

Lemma sound_z_enum values p v : sound (z_enum values p v).
Proof.
  destruct v as [s|]; simpl; [|apply sound_INVALID].
  destruct (mem s values); [apply sound_OK | apply sound_INVALID].
Qed.

Lemma sound_z_literal l p v : sound (z_literal l p v).
Proof.
  destruct v as [s|]; simpl; [|apply sound_INVALID].
  destruct (s =? l); [apply sound_OK | apply sound_INVALID].
Qed.

Lemma sound_optional {A : Type} (schema : path -> option A -> result) p v :
  (forall p v, sound (schema p v)) -> sound (optional schema p v).
Proof. intros H. destruct v; simpl; [apply H | apply sound_OK]. Qed.

Lemma sound_or {A : Type} (a b : path -> A -> result) p v :
  sound (a p v) -> sound (b p v) -> sound (or a b p v).
Proof.
  unfold or. intros Ha Hb.
  destruct (st (a p v)) eqn:Ea, (st (b p v)) eqn:Eb; auto using sound_INVALID.
Qed.

Lemma sound_refine_field schema pred msg p v :
  sound (schema p v) -> sound (refine_field schema pred msg p v).
Proof.
  unfold refine_field. intros H.
  destruct (st (schema p v)) eqn:E, v as [s|]; auto;
    apply sound_merge; each_member; auto using sound_check.
Qed.

Lemma sound_parse_elements {A : Type} (elem : path -> A -> result) p l :
  (forall q x, sound (elem q x)) -> forall i, Forall sound (parse_elements elem p i l).
Proof. intros H. induction l; intros i; simpl; constructor; auto. Qed.

Lemma sound_z_array {A : Type} (elem : path -> A -> result) min p l :
  (forall q x, sound (elem q x)) -> sound (z_array elem min p l).
Proof.
  intros H. unfold z_array. apply sound_merge. constructor.
  - destruct min as [[n m]|]; [apply sound_check | apply sound_OK].
  - apply sound_parse_elements, H.
Qed.

Lemma sound_refine {D : Type} (schema : D -> result) pred msg p data :
  sound (schema data) -> sound (refine schema pred msg p data).
Proof.
  unfold refine. intros H.
  destruct (st (schema data)) eqn:E; auto;
    apply sound_merge; each_member; auto using sound_check.
Qed.

Lemma sound_faq_entry p f : sound (faq_entry p f).
Proof. apply sound_merge; each_member; apply sound_z_string. Qed.

Lemma sound_some_string checks p s : sound (some_string checks p s).
Proof. apply sound_z_string. Qed.

Lemma sound_slug_field p v : sound (slug_field p v).
Proof.
  apply sound_or; [apply sound_optional; intros; apply sound_z_string | apply sound_z_literal].
Qed.

Create HintDb zod.
#[local] Hint Resolve sound_OK sound_INVALID sound_check sound_z_string sound_z_number
  sound_z_enum sound_z_literal sound_faq_entry sound_some_string sound_slug_field : zod.
#[local] Hint Extern 2 (sound (optional _ _ _)) => apply sound_optional; intros : zod.
#[local] Hint Extern 2 (sound (refine_field _ _ _ _ _)) => apply sound_refine_field : zod.
#[local] Hint Extern 2 (sound (z_array _ _ _ _)) => apply sound_z_array; intros : zod.
#[local] Hint Extern 2 (sound (merge _)) => apply sound_merge; each_member : zod.

Lemma status_eq_dec (a b : status) : {a = b} + {a <> b}.
Proof. decide equality. Qed.

(** An aborted parse has raised an issue. *)
Lemma aborted_has_issue r : sound r -> st r = aborted -> issues r <> [].
Proof. intros [_ H] E N. apply H in N. congruence. Qed.

(** *** Object refinements *)

Lemma refine_aborted {D : Type} (schema : D -> result) pred msg p data :
  st (schema data) = aborted -> refine schema pred msg p data = schema data.
Proof. unfold refine. intros ->. reflexivity. Qed.

Lemma refine_status {D : Type} (schema : D -> result) pred msg p data :
  st (refine schema pred msg p data) = aborted <-> st (schema data) = aborted.
Proof.
  unfold refine. destruct (st (schema data)) eqn:E; rewrite ?E;
    destruct (pred data); simpl; rewrite ?E; simpl; intuition congruence.
Qed.

Lemma refine_issues {D : Type} (schema : D -> result) pred msg p data :
  st (schema data) <> aborted ->
  issues (refine schema pred msg p data)
  = (issues (schema data) ++ if pred data then [] else [Issue p msg])%list.
Proof.
  unfold refine. intros H.
  destruct (st (schema data)) eqn:E; try congruence;
    destruct (pred data); simpl; rewrite ?app_nil_r; reflexivity.
Qed.

(** *** The three objects *)

Lemma sound_non_empty p s : sound (TourEdit.non_empty p s).
Proof. apply sound_z_string. Qed.

#[local] Hint Resolve sound_non_empty : zod.

Lemma sound_tourObject strip data : sound (Tour.tourObject strip data).
Proof. unfold Tour.tourObject, Tour.detailsObject. auto 6 with zod. Qed.

Lemma sound_tourObject_edit data : sound (TourEdit.tourObject data).
Proof. unfold TourEdit.tourObject, TourEdit.detailsObject. auto 6 with zod. Qed.

Lemma sound_transferObject strip data : sound (Transfer.transferObject strip data).
Proof. unfold Transfer.transferObject, Transfer.detailsObject. auto 6 with zod. Qed.

#[local] Hint Resolve sound_tourObject sound_tourObject_edit sound_transferObject : zod.

(** ** Slug generation *)

Section Chars.

Variables P Q : ascii -> bool.

Lemma all_chars_filter s : all_chars P (filter_chars P s) = true.
Proof.
  induction s as [|c r IH]; simpl; auto.
  destruct (P c) eqn:E; simpl; rewrite ?E; auto.
Qed.

Lemma all_chars_dropWhile s :
  all_chars P s = true -> all_chars P (dropWhile Q s) = true.
Proof.
  induction s as [|c r IH]; simpl; auto.
  intros H. destruct (Q c); auto.
  apply andb_true_iff in H. apply IH, H.
Qed.

Lemma all_chars_dropWhileEnd s :
  all_chars P s = true -> all_chars P (dropWhileEnd Q s) = true.
Proof.
  induction s as [|c r IH]; simpl; auto.
  intros H. apply andb_true_iff in H. destruct H as [Hc Hr].
  destruct (Q c && (dropWhileEnd Q r =? "")); simpl; auto.
  rewrite Hc. simpl. auto.
Qed.

(** Replacing the runs of a class [Q] by hyphens leaves characters of [R]
    when the other characters are in [R] already. *)
Lemma all_chars_replace_runs (R : ascii -> bool) s :
  R "-"%char = true ->
  (forall c, P c = true -> Q c = false -> R c = true) ->
  all_chars P s = true ->
  forall in_run, all_chars R (replace_runs Q in_run s) = true.
Proof.
  intros Hh HR. induction s as [|c r IH]; simpl; auto.
  intros H in_run. apply andb_true_iff in H. destruct H as [Hc Hr].
  destruct (Q c) eqn:E.
  - destruct in_run; simpl; rewrite ?Hh; simpl; auto.
  - simpl. rewrite (HR c Hc E). simpl. auto.
Qed.

End Chars.

Lemma keep_not_space c : slug_keep c = true -> is_space c = false -> slug_char c = true.
Proof.
  unfold slug_keep, slug_char, is_space. intros H N.
  destruct (code c =? 32)%nat, (in_range 9 13 c), (code c =? 160)%nat;
    try discriminate.
  destruct (is_lower c), (is_digit c), (is_hyphen c); auto.
Qed.

Lemma generatedSlug_chars t : all_chars slug_char (generatedSlug t) = true.
Proof.
  unfold generatedSlug.
  apply all_chars_dropWhileEnd, all_chars_dropWhile.
  apply all_chars_replace_runs with (P := slug_char); auto.
  apply all_chars_replace_runs with (P := slug_keep); auto using keep_not_space.
  apply all_chars_filter.
Qed.

(** C10. The slug that the title effect stores, for any title or none,
    matches the slug pattern, and the slug field of the schemas accepts it
    without an issue. *)
Theorem generated_slug_is_accepted (watchTitle : option string) :
  slug_regex (slug_effect watchTitle) = true
  /\ slug_field [Key "slug"] (Some (slug_effect watchTitle)) = OK.
Proof.
  assert (H : slug_regex (slug_effect watchTitle) = true).
  { unfold slug_regex, slug_effect. destruct watchTitle as [t|]; auto.
    destruct (negb (trim t =? "")); auto using generatedSlug_chars. }
  split; auto.
  unfold slug_field, or, optional, z_string. simpl. rewrite H. reflexivity.
Qed.

(** ** Where the issues of a field sit *)

Lemma from_field_here p msgs m : In m msgs -> from_field p msgs (Issue p m).
Proof. intros H. exists []. simpl. rewrite app_nil_r. auto. Qed.

Lemma from_field_sub p s msgs msgs' i :
  from_field (sub p s) msgs i -> from_field p msgs' i.
Proof.
  intros [q [Hq _]]. exists (s :: q). split; [|discriminate].
  rewrite Hq. unfold sub. rewrite <- app_assoc. reflexivity.
Qed.

Lemma from_field_weaken p msgs msgs' i :
  incl msgs msgs' -> from_field p msgs i -> from_field p msgs' i.
Proof. intros H [q [Hq Hm]]. exists q. auto. Qed.

Lemma check_issue ok p msg i : In i (issues (check ok p msg)) -> i = Issue p msg.
Proof. destruct ok; simpl; intuition. Qed.

Lemma z_string_from checks p v i :
  In i (issues (z_string checks p v)) ->
  from_field p ("Required" :: map check_message checks) i.
Proof.
  destruct v as [s|]; simpl.
  - intros H. apply merge_issues_In in H. destruct H as [r [Hr Hi]].
    apply in_map_iff in Hr. destruct Hr as [c [<- Hc]].
    assert (i = Issue p (check_message c)) as ->
      by (destruct c; apply check_issue in Hi; exact Hi).
    apply from_field_here. right. apply in_map, Hc.
  - intros [<-|[]]. apply from_field_here. left. reflexivity.
Qed.

Lemma z_number_from checks p v i :
  In i (issues (z_number checks p v)) ->
  from_field p ("Required" :: "Expected number, received nan"
                :: map number_check_message checks) i.
Proof.
  destruct v as [[|x]|]; simpl.
  - intros [<-|[]]. apply from_field_here. simpl. auto.
  - intros H. apply merge_issues_In in H. destruct H as [r [Hr Hi]].
    apply in_map_iff in Hr. destruct Hr as [c [<- Hc]].
    assert (i = Issue p (number_check_message c)) as ->
      by (destruct c; apply check_issue in Hi; exact Hi).
    apply from_field_here. right. right. apply in_map, Hc.
  - intros [<-|[]]. apply from_field_here. left. reflexivity.
Qed.

Lemma z_enum_from values p v i :
  In i (issues (z_enum values p v)) ->
  from_field p ["Required"; "Invalid enum value"] i.
Proof.
  destruct v as [s|]; simpl; [destruct (mem s values); simpl|];
    intros H; try tauto; destruct H as [<-|[]]; apply from_field_here; simpl; auto.
Qed.

Lemma z_literal_from l p v i :
  In i (issues (z_literal l p v)) -> from_field p ["Invalid literal value"] i.
Proof.
  destruct v as [s|]; simpl; [destruct (s =? l); simpl|];
    intros H; try tauto; destruct H as [<-|[]]; apply from_field_here; simpl; auto.
Qed.

Lemma optional_from {A : Type} (schema : path -> option A -> result) msgs p v i :
  (In i (issues (schema p v)) -> from_field p msgs i) ->
  In i (issues (optional schema p v)) -> from_field p msgs i.
Proof. destruct v; simpl; tauto. Qed.


Lemma slug_field_from p v i :
  In i (issues (slug_field p v)) -> from_field p slug_messages i.
Proof.
  unfold slug_field, or.
  set (a := optional _ p v). set (b := z_literal "" p v).
  assert (Ha : In i (issues a) -> from_field p slug_messages i).
  { intros H. apply optional_from with (msgs := ["Required";
      "Slug can only contain lowercase letters, numbers and hyphens"]) in H.
    - eapply from_field_weaken; [|exact H]. unfold slug_messages. intros x [<-|[<-|[]]]; simpl; auto.
    - apply z_string_from. }
  assert (Hb : In i (issues b) -> from_field p slug_messages i).
  { intros H. apply z_literal_from in H.
    eapply from_field_weaken; [|exact H]. unfold slug_messages. intros x [<-|[]]; simpl; auto. }
  destruct (st a), (st b); auto.
  simpl. intros [<-|[]]. apply from_field_here. unfold slug_messages. simpl. auto.
Qed.

Lemma refine_field_from schema pred msg msgs p v i :
  (In i (issues (schema p v)) -> from_field p msgs i) ->
  In i (issues (refine_field schema pred msg p v)) -> from_field p (msg :: msgs) i.
Proof.
  intros Hs. unfold refine_field.
  assert (Hw : In i (issues (schema p v)) -> from_field p (msg :: msgs) i).
  { intros H. eapply from_field_weaken; [|apply Hs, H]. apply incl_tl, incl_refl. }
  destruct (st (schema p v)), v as [s|]; auto;
    intros H; apply merge_issues_In in H; destruct H as [r [[<-|[<-|[]]] Hi]]; auto;
    apply check_issue in Hi; subst i; apply from_field_here; left; reflexivity.
Qed.

Lemma parse_elements_from {A : Type} (elem : path -> A -> result) msgs' p l :
  (forall q x i, In i (issues (elem q x)) -> exists msgs, from_field q msgs i) ->
  forall k r i, In r (parse_elements elem p k l) -> In i (issues r) -> from_field p msgs' i.
Proof.
  intros He. induction l as [|x l IH]; intros k r i Hr Hi; [destruct Hr|].
  destruct Hr as [<-|Hr]; [|eapply IH; eauto].
  apply He in Hi. destruct Hi as [msgs Hi]. eapply from_field_sub, Hi.
Qed.

Lemma z_array_from {A : Type} (elem : path -> A -> result) min p l i :
  (forall q x i, In i (issues (elem q x)) -> exists msgs, from_field q msgs i) ->
  In i (issues (z_array elem min p l)) ->
  from_field p (match min with Some (_, msg) => [msg] | None => [] end) i.
Proof.
  intros He H. unfold z_array in H. apply merge_issues_In in H.
  destruct H as [r [[<-|Hr] Hi]].
  - destruct min as [[n msg]|]; [|destruct Hi].
    apply check_issue in Hi. subst i. apply from_field_here. left. reflexivity.
  - eapply parse_elements_from; eauto.
Qed.

Lemma some_string_from checks q x i :
  In i (issues (some_string checks q x)) -> exists msgs, from_field q msgs i.
Proof. intros H. eexists. eapply z_string_from. exact H. Qed.

Lemma faq_entry_from q x i :
  In i (issues (faq_entry q x)) -> exists msgs, from_field q msgs i.
Proof.
  intros H. apply merge_issues_In in H. destruct H as [r [[<-|[<-|[]]] Hi]];
    exists []; apply z_string_from in Hi; eapply from_field_sub, Hi.
Qed.

Lemma optional_z_string_from checks p v i :
  In i (issues (optional (z_string checks) p v)) ->
  from_field p ("Required" :: map check_message checks) i.
Proof. apply optional_from, z_string_from. Qed.

Lemma optional_z_number_from checks p v i :
  In i (issues (optional (z_number checks) p v)) ->
  from_field p ("Required" :: "Expected number, received nan"
                :: map number_check_message checks) i.
Proof. apply optional_from, z_number_from. Qed.

Lemma rich_text_from pred msg p v i :
  In i (issues (refine_field (z_string []) pred msg p v)) ->
  from_field p [msg; "Required"] i.
Proof. apply refine_field_from, z_string_from. Qed.

Lemma strings_from checks min p l i :
  In i (issues (z_array (some_string checks) min p l)) ->
  from_field p (match min with Some (_, msg) => [msg] | None => [] end) i.
Proof. apply z_array_from. intros q x j. apply some_string_from. Qed.

Lemma faqs_from min p l i :
  In i (issues (z_array faq_entry min p l)) ->
  from_field p (match min with Some (_, msg) => [msg] | None => [] end) i.
Proof. apply z_array_from, faq_entry_from. Qed.

(** The origin of an issue [H : In i (issues r)] of one member [r]. *)
Ltac origin H :=
  first [ apply z_string_from in H | apply z_number_from in H
        | apply z_enum_from in H | apply slug_field_from in H
        | apply optional_z_string_from in H | apply optional_z_number_from in H
        | apply rich_text_from in H | apply strings_from in H
        | apply faqs_from in H ].

(** The members of an object, one case each. *)
Ltac members H r Hi :=
  apply merge_issues_In in H; destruct H as [r [H Hi]];
  cbn [In] in H; repeat (destruct H as [<- | H]); [.. | destruct H].

Lemma tour_details_from strip p d i :
  In i (issues (Tour.detailsObject strip p d)) -> from_field p [] i.
Proof.
  intros H. unfold Tour.detailsObject in H. members H r Hi;
    origin Hi; eapply from_field_sub, Hi.
Qed.

Lemma edit_details_from p d i :
  In i (issues (TourEdit.detailsObject p d)) -> from_field p [] i.
Proof.
  intros H. unfold TourEdit.detailsObject, TourEdit.non_empty in H. members H r Hi;
    origin Hi; eapply from_field_sub, Hi.
Qed.

Lemma transfer_details_from strip p d i :
  In i (issues (Transfer.detailsObject strip p d)) -> from_field p [] i.
Proof.
  intros H. unfold Transfer.detailsObject in H. members H r Hi;
    origin Hi; eapply from_field_sub, Hi.
Qed.

Ltac origin_top H :=
  first [ origin H | apply tour_details_from in H | apply edit_details_from in H
        | apply transfer_details_from in H ].

(** An issue that cannot come from the field: another path, or the same path
    and another message. *)
Ltac not_from H :=
  let q := fresh "q" in
  let Hq := fresh "Hq" in
  let Hm := fresh "Hm" in
  destruct H as [q [Hq Hm]]; cbn in Hq;
  first [ discriminate Hq
        | injection Hq as Hq; subst q; specialize (Hm eq_refl); cbn in Hm;
          intuition discriminate ].

(** No issue of the fields is one of the issues of the refinements. *)
Lemma fields_not_cross strip d i :
  In i (issues (fields strip d)) -> ~ In i (crossField d).
Proof.
  intros H Hc. destruct d as [data|data|data]; cbn [fields crossField] in *.
  - unfold Tour.tourObject in H. members H r Hi; origin_top Hi;
      unfold Tour.crossField, Tour.refinements in Hc; cbn [map rule_issue rule_path rule_message In] in Hc;
      repeat (destruct Hc as [<- | Hc]); try (exact Hc); not_from Hi.
  - unfold TourEdit.tourObject, TourEdit.non_empty in H. members H r Hi; origin_top Hi;
      unfold TourEdit.crossField, TourEdit.refinements in Hc; cbn [map rule_issue rule_path rule_message In] in Hc;
      repeat (destruct Hc as [<- | Hc]); try (exact Hc); not_from Hi.
  - unfold Transfer.transferObject in H. members H r Hi; origin_top Hi;
      unfold Transfer.crossField, Transfer.refinements in Hc; cbn [map rule_issue rule_path rule_message In] in Hc;
      repeat (destruct Hc as [<- | Hc]); try (exact Hc); not_from Hi.
Qed.

(** *** Chains of refinements *)

Section RefineAll.

Context {D : Type}.
Implicit Types (schema : D -> result) (rules : list (rule D)) (data : D).

Lemma refine_all_nil schema : refine_all schema [] = schema.
Proof. reflexivity. Qed.

Lemma refine_all_cons schema r rules :
  refine_all schema (r :: rules)
  = refine_all (refine schema (holds r) (rule_message r) (rule_path r)) rules.
Proof. reflexivity. Qed.

Lemma refine_all_status schema rules data :
  st (refine_all schema rules data) = aborted <-> st (schema data) = aborted.
Proof.
  revert schema. induction rules as [|r rules IH]; intros schema.
  - reflexivity.
  - rewrite refine_all_cons, IH. apply refine_status.
Qed.

Lemma refine_all_aborted schema rules data :
  st (schema data) = aborted -> refine_all schema rules data = schema data.
Proof.
  revert schema. induction rules as [|r rules IH]; intros schema H; auto.
  rewrite refine_all_cons, IH.
  - apply refine_aborted, H.
  - apply refine_status, H.
Qed.

Lemma refine_all_issues schema rules data :
  st (schema data) <> aborted ->
  issues (refine_all schema rules data) = (issues (schema data) ++ failed rules data)%list.
Proof.
  revert schema. induction rules as [|r rules IH]; intros schema H.
  - unfold failed. simpl. rewrite app_nil_r. reflexivity.
  - rewrite refine_all_cons, IH by (rewrite refine_status; exact H).
    rewrite refine_issues by exact H. rewrite <- app_assoc. f_equal.
    unfold failed. simpl. destruct (holds r data); reflexivity.
Qed.

Lemma failed_In rules data i :
  In i (failed rules data) <->
  exists r, In r rules /\ holds r data = false /\ i = rule_issue r.
Proof.
  unfold failed. rewrite in_map_iff. split.
  - intros [r [<- H]]. apply filter_In in H. destruct H as [Hr Hh].
    exists r. repeat split; auto. destruct (holds r data); auto; discriminate.
  - intros [r [Hr [Hh ->]]]. exists r. split; auto.
    apply filter_In. rewrite Hh. auto.
Qed.

Lemma failed_nil rules data :
  failed rules data = [] -> forall r, In r rules -> holds r data = true.
Proof.
  intros H r Hr. destruct (holds r data) eqn:E; auto.
  assert (Hin : In (rule_issue r) (failed rules data))
    by (apply failed_In; exists r; auto).
  rewrite H in Hin. destruct Hin.
Qed.

End RefineAll.

(** Each schema is the chain of its refinements over its object. *)
Lemma tourSchema_chain strip :
  Tour.tourSchema strip = refine_all (Tour.tourObject strip) Tour.refinements.
Proof. reflexivity. Qed.

Lemma tourSchema_edit_chain :
  TourEdit.tourSchema = refine_all TourEdit.tourObject TourEdit.refinements.
Proof. reflexivity. Qed.

Lemma transferSchema_chain strip :
  Transfer.transferSchema strip
  = refine_all (Transfer.transferObject strip) Transfer.refinements.
Proof.
  unfold Transfer.transferSchema, Transfer.refinements.
  rewrite !refine_all_cons, refine_all_nil. cbn [holds rule_message rule_path].
  reflexivity.
Qed.

Lemma sound_fields strip d : sound (fields strip d).
Proof. destruct d; simpl; auto with zod. Qed.

(** The error set when the parse of the fields aborted, and when it did
    not. *)
Lemma validate_aborted strip d :
  st (fields strip d) = aborted -> validate strip d = issues (fields strip d).
Proof.
  unfold validate. intros H. destruct d as [data|data|data]; cbn [schema fields] in *;
    rewrite ?tourSchema_chain, ?tourSchema_edit_chain, ?transferSchema_chain;
    rewrite refine_all_aborted; auto.
Qed.

Lemma validate_parsed strip d :
  st (fields strip d) <> aborted ->
  validate strip d = (issues (fields strip d) ++ failing d)%list.
Proof.
  unfold validate. intros H. destruct d as [data|data|data]; cbn [schema fields failing] in *;
    rewrite ?tourSchema_chain, ?tourSchema_edit_chain, ?transferSchema_chain;
    rewrite refine_all_issues; auto.
Qed.

Lemma failing_crossField d i : In i (failing d) -> In i (crossField d).
Proof.
  destruct d as [data|data|data]; cbn [failing crossField];
    intros H; apply failed_In in H; destruct H as [r [Hr [_ ->]]];
    apply in_map, Hr.
Qed.

(** A draft that validates: no field raised an issue and no refinement
    failed. *)
Lemma validate_nil strip d :
  validate strip d = [] -> issues (fields strip d) = [] /\ failing d = [].
Proof.
  intros H. destruct (status_eq_dec (st (fields strip d)) aborted) as [E|E].
  - rewrite validate_aborted in H by exact E.
    exfalso. exact (aborted_has_issue _ (sound_fields strip d) E H).
  - rewrite validate_parsed in H by exact E. apply app_eq_nil in H. exact H.
Qed.

Lemma validate_fails strip d i : In i (failing d) -> validate strip d <> [].
Proof.
  intros Hi H. apply validate_nil in H. destruct H as [_ H]. rewrite H in Hi. exact Hi.
Qed.

Lemma validate_reports strip d i :
  st (fields strip d) <> aborted -> In i (failing d) -> In i (validate strip d).
Proof. intros E Hi. rewrite validate_parsed by exact E. apply in_or_app. auto. Qed.

(** *** Which parses abort *)

Lemma abortedb_spec r : abortedb r = true <-> st r = aborted.
Proof. unfold abortedb. destruct (st r); split; congruence. Qed.

Lemma abortedb_false r : abortedb r = false <-> st r <> aborted.
Proof. unfold abortedb. destruct (st r); split; congruence. Qed.

Lemma abortedb_merge rs : abortedb (merge rs) = existsb abortedb rs.
Proof.
  induction rs as [|r rs IH]; [reflexivity|].
  rewrite merge_cons. cbn [existsb]. rewrite <- IH.
  unfold abortedb. cbn [st]. destruct (st r), (st (merge rs)); reflexivity.
Qed.

Lemma existsb_map_never {A B : Type} (g : A -> B) (f : B -> bool) l :
  (forall x, f (g x) = false) -> existsb f (map g l) = false.
Proof. intros H. induction l; simpl; rewrite ?H; auto. Qed.

Lemma abortedb_check ok p msg : abortedb (check ok p msg) = false.
Proof. destruct ok; reflexivity. Qed.

Lemma abortedb_z_string checks p v : abortedb (z_string checks p v) = missing v.
Proof.
  destruct v as [s|]; [|reflexivity]. simpl. rewrite abortedb_merge.
  apply existsb_map_never. intros [n m|n m|re m]; apply abortedb_check.
Qed.

Lemma abortedb_z_number checks p v : abortedb (z_number checks p v) = not_a_number v.
Proof.
  destruct v as [[|x]|]; try reflexivity. simpl. rewrite abortedb_merge.
  apply existsb_map_never. intros [lo m|hi m]; apply abortedb_check.
Qed.

Lemma abortedb_z_enum values p v : abortedb (z_enum values p v) = outside values v.
Proof. destruct v as [s|]; [|reflexivity]. simpl. destruct (mem s values); reflexivity. Qed.

Lemma abortedb_optional_string checks p v :
  abortedb (optional (z_string checks) p v) = false.
Proof.
  destruct v as [s|]; [|reflexivity]. exact (abortedb_z_string checks p (Some s)).
Qed.

Lemma abortedb_optional_number checks p v :
  abortedb (optional (z_number checks) p v) = is_nan v.
Proof.
  destruct v as [[|x]|]; try reflexivity.
  exact (abortedb_z_number checks p (Some (Num x))).
Qed.

Lemma abortedb_slug_field p v : abortedb (slug_field p v) = false.
Proof.
  unfold slug_field, or. cbv zeta.
  pose proof (abortedb_optional_string
    [regex slug_regex "Slug can only contain lowercase letters, numbers and hyphens"] p v)
    as H.
  apply abortedb_false in H. apply abortedb_false.
  set (a := optional _ p v) in *. set (b := z_literal "" p v).
  destruct (st a) eqn:Ea, (st b) eqn:Eb; simpl; congruence.
Qed.

Lemma abortedb_rich_text pred msg p v :
  abortedb (refine_field (z_string []) pred msg p v) = missing v.
Proof.
  destruct v as [s|]; [|reflexivity]. unfold refine_field. simpl.
  unfold abortedb. simpl. destruct (check (pred s) p msg) as [[| |] l] eqn:E; try reflexivity.
  pose proof (abortedb_check (pred s) p msg) as H. rewrite E in H. discriminate H.
Qed.

Lemma abortedb_elements {A : Type} (elem : path -> A -> result) p l :
  (forall q x, abortedb (elem q x) = false) ->
  forall k, existsb abortedb (parse_elements elem p k l) = false.
Proof.
  intros H. induction l as [|x l IH]; intros k; [reflexivity|].
  cbn [parse_elements existsb]. rewrite H. apply IH.
Qed.

Lemma abortedb_z_array {A : Type} (elem : path -> A -> result) min p l :
  (forall q x, abortedb (elem q x) = false) ->
  abortedb (z_array elem min p l) = false.
Proof.
  intros H. unfold z_array. rewrite abortedb_merge. cbn [existsb].
  rewrite abortedb_elements by exact H.
  destruct min as [[n m]|]; [rewrite abortedb_check|]; reflexivity.
Qed.

Lemma abortedb_strings checks min p l :
  abortedb (z_array (some_string checks) min p l) = false.
Proof.
  apply abortedb_z_array. intros q x. unfold some_string. apply abortedb_z_string.
Qed.

Lemma abortedb_faqs min p l : abortedb (z_array faq_entry min p l) = false.
Proof.
  apply abortedb_z_array. intros q x. unfold faq_entry.
  rewrite abortedb_merge. cbn [existsb]. rewrite !abortedb_z_string. reflexivity.
Qed.

Ltac abort_status :=
  rewrite ?abortedb_merge; cbn [existsb];
  rewrite ?abortedb_z_string, ?abortedb_z_number, ?abortedb_z_enum,
    ?abortedb_optional_string, ?abortedb_optional_number, ?abortedb_slug_field,
    ?abortedb_rich_text, ?abortedb_strings, ?abortedb_faqs.

Ltac orb_normal :=
  cbn [orb]; rewrite ?orb_false_r, ?orb_assoc; reflexivity.

(** The parse of the fields aborts exactly on a draft with a value of the
    wrong type. *)
Lemma aborted_iff_ill_typed strip d : abortedb (fields strip d) = ill_typed d.
Proof.
  destruct d as [data|data|data]; cbn [fields ill_typed].
  - unfold Tour.tourObject, Tour.detailsObject. abort_status. abort_status. orb_normal.
  - unfold TourEdit.tourObject, TourEdit.detailsObject, TourEdit.non_empty.
    abort_status. abort_status. orb_normal.
  - unfold Transfer.transferObject, Transfer.detailsObject.
    abort_status. abort_status. orb_normal.
Qed.

Lemma well_typed_not_aborted strip d : ill_typed d = false -> st (fields strip d) <> aborted.
Proof. rewrite <- (aborted_iff_ill_typed strip). apply abortedb_false. Qed.

Lemma ill_typed_aborted strip d : ill_typed d = true -> st (fields strip d) = aborted.
Proof. rewrite <- (aborted_iff_ill_typed strip). apply abortedb_spec. Qed.

(** ** The claims about the schemas *)

Lemma Qle_bool_false a b : (b < a)%Q -> Qle_bool a b = false.
Proof.
  intros H. destruct (Qle_bool a b) eqn:E; auto.
  apply Qle_bool_iff in E. exfalso. apply (Qlt_not_le _ _ H E).
Qed.

Lemma price_rule_fails d a b :
  newPrice d = Some (Num a) -> oldPrice d = Some (Num b) -> (b < a)%Q ->
  In (Issue [Key "newPrice"] "New price must be less than or equal to old price")
     (failing d).
Proof.
  intros Hn Ho Hlt.
  destruct d as [data|data|data]; cbn [failing newPrice oldPrice] in *;
    apply failed_In; eexists; (split; [left; reflexivity|]); split; try reflexivity;
    cbn [holds]; unfold Tour.price_rule, TourEdit.price_rule, Transfer.price_rule;
    rewrite Hn, Ho; simpl; rewrite (Qle_bool_false _ _ Hlt); reflexivity.
Qed.

(** C1 (as amended). A draft whose new price is above its old price never
    validates, whichever of the three validators checks it; and unless a
    field of the draft holds a value of the wrong type, the error set has the
    entry of the price rule at [newPrice]. *)
Theorem price_above_old_price_is_rejected strip d a b :
  newPrice d = Some (Num a) -> oldPrice d = Some (Num b) -> (b < a)%Q ->
  validate strip d <> []
  /\ (ill_typed d = false ->
      In (Issue [Key "newPrice"] "New price must be less than or equal to old price")
         (validate strip d)).
Proof.
  intros Hn Ho Hlt. pose proof (price_rule_fails d a b Hn Ho Hlt) as Hp. split.
  - eapply validate_fails, Hp.
  - intros E. apply validate_reports; [apply well_typed_not_aborted, E | exact Hp].
Qed.

Lemma price_above_old_price_is_rejected_witness :
  let d := TourCreation (tour_set_numbers (Some (Num 0)) (Some (Num 3)) (Some (Num 5))
                           (Some (Num 2)) (Some (Num 10)) sample_tour) in
  validate stripHtmlTags_model d <> []
  /\ In (Issue [Key "newPrice"] "New price must be less than or equal to old price")
        (validate stripHtmlTags_model d).
Proof.
  intros d.
  destruct (price_above_old_price_is_rejected stripHtmlTags_model d 5 3) as [H1 H2];
    [reflexivity | reflexivity | reflexivity |].
  split; [exact H1 | apply H2; vm_compute; reflexivity].
Defined.

(** C1 as stated fails: with the booked count emptied ([NaN]) the parse of
    the fields aborts, the price rule is not run, and the only entry of the
    error set is the one of [bookedCount]. *)
Lemma price_rule_not_run_counterexample :
  let d := TourCreation (tour_set_numbers (Some NaN) (Some (Num 3)) (Some (Num 5))
                           (Some (Num 2)) (Some (Num 10)) sample_tour) in
  newPrice d = Some (Num 5) /\ oldPrice d = Some (Num 3) /\ (3 < 5)%Q
  /\ validate stripHtmlTags_model d
     = [Issue [Key "bookedCount"] "Expected number, received nan"]
  /\ ~ (exists i, In i (validate stripHtmlTags_model d) /\ ipath i = [Key "newPrice"]).
Proof.
  cbv zeta. split; [reflexivity|]. split; [reflexivity|]. split; [reflexivity|].
  split; [vm_compute; reflexivity|].
  intros [i [H Hp]]. vm_compute in H. destruct H as [<-|[]]. discriminate Hp.
Qed.

(** [member H p]: from [H : issues (merge rs) = []], the same fact for the
    member of [rs] parsed at the path [p]. *)
Ltac member H p :=
  match type of H with
  | issues (merge ?rs) = [] =>
      let rec go l :=
        match l with
        | ?r :: ?l' => match r with
                       | context [p] => constr:(r)
                       | _ => go l'
                       end
        end in
      let r := go rs in
      let Hr := fresh "Hmember" in
      assert (Hr : issues r = []) by (apply (merge_issues_nil _ H); cbn [In]; tauto)
  end.

Lemma check_passes ok p msg : issues (check ok p msg) = [] -> ok = true.
Proof. destruct ok; [reflexivity | discriminate]. Qed.

Lemma z_string_bounds lo hi m1 m2 p v :
  issues (z_string [min_len lo m1; max_len hi m2] p v) = [] ->
  exists s, v = Some s /\ lo <= String.length s <= hi.
Proof.
  destruct v as [s|]; simpl; [|discriminate].
  intros H. apply app_eq_nil in H. destruct H as [H1 H2].
  apply app_eq_nil in H2. destruct H2 as [H2 _].
  apply check_passes, Nat.leb_le in H1. apply check_passes, Nat.leb_le in H2.
  exists s. auto.
Qed.

(** *** C6: the person rule of the tours *)

Lemma person_rule_fails d a b :
  is_tour d = true -> type d = Some "co-tour" ->
  maximumPerson d = Some (Num a) -> minimumPerson d = Some (Num b) -> (a <= b)%Q ->
  In (Issue [Key "maximumPerson"] "Maximum persons must be greater than minimum persons")
     (failing d).
Proof.
  intros Ht Hty Hmax Hmin Hle. apply Qle_bool_iff in Hle.
  destruct d as [data|data|data]; try discriminate Ht;
    cbn [failing type maximumPerson minimumPerson] in *;
    apply failed_In; eexists; (split; [right; left; reflexivity|]);
    (split; [|reflexivity]); cbn [holds];
    unfold Tour.person_rule, TourEdit.person_rule;
    rewrite Hty, Hmax, Hmin; simpl; rewrite Hle; reflexivity.
Qed.

Lemma person_rule_private d :
  is_tour d = true -> type d = Some "private" ->
  ~ In (Issue [Key "maximumPerson"] "Maximum persons must be greater than minimum persons")
       (failing d).
Proof.
  intros Ht Hty H.
  destruct d as [data|data|data]; try discriminate Ht; cbn [failing type] in *;
    apply failed_In in H; destruct H as [r [Hr [Hh Hi]]];
    cbn [In Tour.refinements TourEdit.refinements] in Hr;
    repeat (destruct Hr as [<- | Hr]); try (exact Hr); try discriminate Hi;
    cbn [holds] in Hh; unfold Tour.person_rule, TourEdit.person_rule in Hh;
    rewrite Hty in Hh; discriminate Hh.
Qed.

Lemma person_issue_cross d :
  is_tour d = true ->
  In (Issue [Key "maximumPerson"] "Maximum persons must be greater than minimum persons")
     (crossField d).
Proof.
  destruct d; try discriminate; intros _; right; left; reflexivity.
Qed.

(** C6 (as amended). For a tour draft of type co-tour whose maximum is at
    most its minimum (both numbers), validation fails, and the error set has
    the entry of the person rule at [maximumPerson] unless a field of the
    draft holds a value of the wrong type.  For a tour draft of type
    private the person rule raises no entry, whatever the two numbers are.
    Both hold for the creation and for the edit validator. *)
Theorem person_rule_for_co_tours_only strip d :
  is_tour d = true ->
  (forall a b,
      type d = Some "co-tour" ->
      maximumPerson d = Some (Num a) -> minimumPerson d = Some (Num b) -> (a <= b)%Q ->
      validate strip d <> []
      /\ (ill_typed d = false ->
          In (Issue [Key "maximumPerson"]
                "Maximum persons must be greater than minimum persons")
             (validate strip d)))
  /\ (type d = Some "private" ->
      ~ In (Issue [Key "maximumPerson"]
              "Maximum persons must be greater than minimum persons")
           (validate strip d)).
Proof.
  intros Ht. split.
  - intros a b Hty Hmax Hmin Hle.
    pose proof (person_rule_fails d a b Ht Hty Hmax Hmin Hle) as Hp. split.
    + eapply validate_fails, Hp.
    + intros E. apply validate_reports; [apply well_typed_not_aborted, E | exact Hp].
  - intros Hty H. destruct (status_eq_dec (st (fields strip d)) aborted) as [E|E].
    + rewrite validate_aborted in H by exact E.
      exact (fields_not_cross strip d _ H (person_issue_cross d Ht)).
    + rewrite validate_parsed in H by exact E. apply in_app_or in H. destruct H as [H|H].
      * exact (fields_not_cross strip d _ H (person_issue_cross d Ht)).
      * exact (person_rule_private d Ht Hty H).
Qed.

Lemma person_rule_for_co_tours_only_witness :
  let co := TourCreation (tour_set_numbers (Some (Num 0)) (Some (Num 100)) (Some (Num 80))
                            (Some (Num 4)) (Some (Num 4)) sample_tour) in
  let private := TourEdition sample_tour_edit_private in
  (validate stripHtmlTags_model co <> []
   /\ In (Issue [Key "maximumPerson"]
            "Maximum persons must be greater than minimum persons")
         (validate stripHtmlTags_model co))
  /\ ~ In (Issue [Key "maximumPerson"]
             "Maximum persons must be greater than minimum persons")
          (validate stripHtmlTags_model private).
Proof.
  intros co private. split.
  - destruct (person_rule_for_co_tours_only stripHtmlTags_model co eq_refl) as [H _].
    destruct (H 4%Q 4%Q) as [H1 H2];
      [reflexivity | reflexivity | reflexivity | discriminate |].
    split; [exact H1 | apply H2; vm_compute; reflexivity].
  - destruct (person_rule_for_co_tours_only stripHtmlTags_model private eq_refl) as [_ H].
    apply H. reflexivity.
Defined.

(** C6 as stated fails: a co-tour whose maximum equals its minimum, both
    valid on their own, and whose booked count is [NaN]; the person rule is
    not run and nothing is reported at [maximumPerson]. *)
Lemma person_rule_not_run_counterexample :
  let d := TourCreation (tour_set_numbers (Some NaN) (Some (Num 100)) (Some (Num 80))
                           (Some (Num 4)) (Some (Num 4)) sample_tour) in
  type d = Some "co-tour"
  /\ maximumPerson d = Some (Num 4) /\ minimumPerson d = Some (Num 4) /\ (4 <= 4)%Q
  /\ validate stripHtmlTags_model d
     = [Issue [Key "bookedCount"] "Expected number, received nan"]
  /\ ~ (exists i, In i (validate stripHtmlTags_model d)
                  /\ ipath i = [Key "maximumPerson"]).
Proof.
  cbv zeta. split; [reflexivity|]. split; [reflexivity|]. split; [reflexivity|].
  split; [discriminate|]. split; [vm_compute; reflexivity|].
  intros [i [H Hp]]. vm_compute in H. destruct H as [<-|[]]. discriminate Hp.
Qed.

(** *** C7: the length of the description *)

(** C7 (as amended). A tour draft validates only if its description has at
    least 50 characters and at most 110 under the creation validator, at
    most 200 under the edit validator. *)
Theorem description_length_bounds strip d :
  is_tour d = true ->
  validate strip d = [] ->
  exists s, description d = Some s /\ 50 <= String.length s <= description_max d.
Proof.
  intros Ht H. apply validate_nil in H. destruct H as [H _].
  destruct d as [data|data|data]; try discriminate Ht;
    cbn [fields description description_max] in *.
  - unfold Tour.tourObject in H. member H [Key "description"].
    apply z_string_bounds in Hmember. exact Hmember.
  - unfold TourEdit.tourObject in H. member H [Key "description"].
    apply z_string_bounds in Hmember. exact Hmember.
Qed.

Lemma description_length_bounds_witness :
  exists s, description (TourCreation sample_tour) = Some s
            /\ 50 <= String.length s <= 110.
Proof.
  apply (description_length_bounds stripHtmlTags_model (TourCreation sample_tour));
    [reflexivity | vm_compute; reflexivity].
Defined.

(** C7 as stated fails: the edit validator accepts a description of 150
    characters. *)
Lemma long_description_accepted_counterexample :
  let d := TourEdition (edit_set_description (Some (copies 150 "y")) sample_tour_edit) in
  description d = Some (copies 150 "y")
  /\ String.length (copies 150 "y") = 150
  /\ validate stripHtmlTags_model d = [].
Proof.
  cbv zeta. split; [reflexivity|]. split; vm_compute; reflexivity.
Qed.

(** *** C8: when the refinements run *)

(** C8 (as amended). When a field of the draft holds a value of the wrong
    type (a required value is missing, a number is [NaN], an enum field holds
    another string), the parse of the fields aborts and the error set has no
    issue of a cross-field refinement.  Otherwise, also after a length,
    range, pattern or rich-text check of a field failed, every refinement
    runs and each one that fails is in the error set, after the errors of
    the fields. *)
Theorem refinements_run_unless_aborted strip d :
  (ill_typed d = true ->
   validate strip d = issues (fields strip d)
   /\ forall i, In i (validate strip d) -> ~ In i (crossField d))
  /\ (ill_typed d = false ->
      validate strip d = (issues (fields strip d) ++ failing d)%list).
Proof.
  split.
  - intros E. apply (ill_typed_aborted strip) in E.
    rewrite validate_aborted by exact E. split; [reflexivity|].
    intros i. apply fields_not_cross.
  - intros E. apply validate_parsed, well_typed_not_aborted, E.
Qed.

Lemma refinements_run_unless_aborted_witness :
  let d := TourCreation (tour_set_numbers (Some NaN) (Some (Num 3)) (Some (Num 5))
                           (Some (Num 2)) (Some (Num 10)) sample_tour) in
  let d' := TourCreation (tour_set_title (Some "Short") sample_tour) in
  (validate stripHtmlTags_model d = issues (fields stripHtmlTags_model d)
   /\ ~ In (Issue [Key "bookedCount"] "Expected number, received nan") (crossField d))
  /\ validate stripHtmlTags_model d'
     = (issues (fields stripHtmlTags_model d') ++ failing d')%list.
Proof.
  intros d d'. split.
  - destruct (refinements_run_unless_aborted stripHtmlTags_model d) as [H _].
    destruct (H eq_refl) as [H1 H2].
    split; [exact H1|]. apply H2. vm_compute. left. reflexivity.
  - destruct (refinements_run_unless_aborted stripHtmlTags_model d') as [_ H].
    apply H. vm_compute. reflexivity.
Defined.

(** C8 as stated fails: a title of five characters fails its length rule,
    the parse is only dirty, and the price rule still reports at
    [newPrice]. *)
Lemma cross_field_after_field_error_counterexample :
  let d := TourCreation (tour_set_title (Some "Short")
                           (tour_set_numbers (Some (Num 0)) (Some (Num 3)) (Some (Num 5))
                              (Some (Num 2)) (Some (Num 10)) sample_tour)) in
  validate stripHtmlTags_model d
  = [ Issue [Key "title"] "Title must be at least 20 characters";
      Issue [Key "newPrice"] "New price must be less than or equal to old price" ]
  /\ issues (fields stripHtmlTags_model d)
     = [ Issue [Key "title"] "Title must be at least 20 characters" ]
  /\ In (Issue [Key "newPrice"] "New price must be less than or equal to old price")
        (crossField d).
Proof.
  cbv zeta. split; [vm_compute; reflexivity|]. split; vm_compute; auto.
Qed.

(** *** C3, C4, C5: the pickup and vehicle rules of the transfers *)

Lemma refine_field_passes pred msg p v :
  issues (refine_field (z_string []) pred msg p v) = [] ->
  exists s, v = Some s /\ pred s = true.
Proof.
  destruct v as [s|]; [|discriminate].
  unfold refine_field. simpl. rewrite app_nil_r.
  intros H. apply check_passes in H. exists s. auto.
Qed.

Lemma transfer_rule_holds strip data r :
  validate strip (TransferCreation data) = [] ->
  In r Transfer.refinements -> holds r data = true.
Proof.
  intros H. apply validate_nil in H. destruct H as [_ H]. apply (failed_nil _ _ H).
Qed.

Lemma len_ge_spec v n :
  len_ge v n = true <-> exists s, v = Some s /\ n <= String.length s.
Proof.
  destruct v as [s|]; simpl.
  - rewrite Nat.leb_le. split.
    + intros H. exists s. auto.
    + intros [s' [E H]]. injection E as ->. exact H.
  - split; [discriminate | intros [s [E _]]; discriminate].
Qed.

(** C4. A transfer draft validates only if its pickup guidelines are present
    and their stripped length is at least 15, whatever its type and pickup
    option; with empty guidelines validation fails, although the rule of the
    field itself raises no issue on the empty string. *)
Theorem pickup_guidelines_always_required strip data :
  (validate strip (TransferCreation data) = [] ->
   exists s, Transfer.pickupGuidelines (Transfer.details data) = Some s
             /\ 15 <= String.length (strip s))
  /\ (Transfer.pickupGuidelines (Transfer.details data) = Some "" ->
      validate strip (TransferCreation data) <> [])
  /\ issues (refine_field (z_string [])
               (fun val => (val =? "") || at_least 15 (strip val))
               "Pickup guidelines must be at least 15 characters"
               [Key "details"; Key "pickupGuidelines"] (Some "")) = [].
Proof.
  split; [|split].
  - intros H.
    pose proof (transfer_rule_holds strip data
      (Rule Transfer.pickupGuidelines_rule
         "Pickup guidelines must be at least 15 characters"
         [Key "details.pickupGuidelines"]) H) as Hr.
    cbn [holds] in Hr. unfold Transfer.pickupGuidelines_rule in Hr.
    apply validate_nil in H. destruct H as [H _]. cbn [fields] in H.
    unfold Transfer.transferObject in H. member H [Key "details"].
    unfold Transfer.detailsObject in Hmember. clear H.
    member Hmember (Key "pickupGuidelines").
    apply refine_field_passes in Hmember0. destruct Hmember0 as [s [Es Hs]].
    exists s. split; [exact Es|].
    rewrite Es in Hr. simpl in Hr.
    assert (Hin : truthy_str (Some s) && (15 <=? String.length s)%nat = true).
    { apply Hr. unfold Transfer.refinements. cbn [In]. tauto. }
    simpl in Hin. apply andb_true_iff in Hin. destruct Hin as [Hne _].
    destruct (s =? "") eqn:E; [discriminate Hne|].
    simpl in Hs. apply Nat.leb_le. exact Hs.
  - intros E. apply validate_fails with
      (i := Issue [Key "details.pickupGuidelines"]
              "Pickup guidelines must be at least 15 characters").
    cbn [failing]. apply failed_In. eexists.
    split; [do 5 right; left; reflexivity|]. split; [|reflexivity].
    cbn [holds]. unfold Transfer.pickupGuidelines_rule. rewrite E. reflexivity.
  - reflexivity.
Qed.

Lemma pickup_guidelines_always_required_witness :
  (exists s, Transfer.pickupGuidelines (Transfer.details sample_transfer) = Some s
             /\ 15 <= String.length (stripHtmlTags_model s))
  /\ validate stripHtmlTags_model
       (TransferCreation
          (transfer_set (Some "Van") (Some "") (Some (Num 0))
             (transfer_set_details (Some "<p>Hotel lobby, Tanah Rata</p>") (Some "")
                [ {| question := "Q"; answer := "A" |} ]
                (Transfer.details sample_transfer))
             sample_transfer)) <> [].
Proof.
  split.
  - destruct (pickup_guidelines_always_required stripHtmlTags_model sample_transfer)
      as [H _].
    apply H. vm_compute. reflexivity.
  - destruct (pickup_guidelines_always_required stripHtmlTags_model
                (transfer_set (Some "Van") (Some "") (Some (Num 0))
                   (transfer_set_details (Some "<p>Hotel lobby, Tanah Rata</p>") (Some "")
                      [ {| question := "Q"; answer := "A" |} ]
                      (Transfer.details sample_transfer))
                   sample_transfer)) as [_ [H _]].
    apply H. reflexivity.
Defined.

(** What the pickup rule does check: the raw length of the location. *)
Lemma pickup_location_raw_length strip data :
  Transfer.pickupOption (Transfer.details data) = Some "admin" ->
  validate strip (TransferCreation data) = [] ->
  exists s, Transfer.pickupLocation (Transfer.details data) = Some s
            /\ 10 <= String.length s.
Proof.
  intros Ha H.
  pose proof (transfer_rule_holds strip data
    (Rule Transfer.pickupLocation_rule
       "Pickup location must be at least 10 characters"
       [Key "details.pickupLocation"]) H) as Hr.
  cbn [holds] in Hr. unfold Transfer.pickupLocation_rule in Hr. rewrite Ha in Hr.
  simpl in Hr. apply len_ge_spec.
  assert (Hin : truthy_str (Transfer.pickupLocation (Transfer.details data))
                && len_ge (Transfer.pickupLocation (Transfer.details data)) 10 = true).
  { apply Hr. unfold Transfer.refinements. cbn [In]. tauto. }
  apply andb_true_iff in Hin. tauto.
Qed.

(** C3, at the failing input. With pickup option admin and the pickup
    location [<div>hi</div>], of raw length 13 and stripped length 2, the
    transfer validates: the pickup rule measures the raw length. *)
Theorem markup_pickup_location_is_accepted :
  let d := transfer_set (Some "Van") (Some "") (Some (Num 0))
             (transfer_set_details (Some "<div>hi</div>")
                (Some "<p>Be there ten minutes early.</p>")
                [ {| question := "Q"; answer := "A" |} ]
                (Transfer.details sample_transfer))
             sample_transfer in
  Transfer.pickupOption (Transfer.details d) = Some "admin"
  /\ Transfer.pickupLocation (Transfer.details d) = Some "<div>hi</div>"
  /\ String.length "<div>hi</div>" = 13
  /\ String.length (stripHtmlTags_model "<div>hi</div>") = 2
  /\ validate stripHtmlTags_model (TransferCreation d) = [].
Proof.
  cbv zeta. repeat split; vm_compute; reflexivity.
Qed.

Lemma vehicle_rule_spec data :
  Transfer.type data = Some "Private" ->
  Transfer.vehicle_rule data = len_ge (Transfer.vehicle data) 2.
Proof.
  intros Ht. unfold Transfer.vehicle_rule. rewrite Ht. simpl.
  destruct (Transfer.vehicle data) as [[|c [|c' s]]|]; reflexivity.
Qed.

(** C5 (as amended). A transfer draft of type Private validates only if its
    vehicle is present with a raw length of at least 2; with a shorter or
    missing vehicle validation fails, and the error set has the entry of the
    vehicle rule at [vehicle] unless a field of the draft holds a value of
    the wrong type. *)
Theorem private_transfer_needs_vehicle strip data :
  Transfer.type data = Some "Private" ->
  (validate strip (TransferCreation data) = [] ->
   exists v, Transfer.vehicle data = Some v /\ 2 <= String.length v)
  /\ (len_ge (Transfer.vehicle data) 2 = false ->
      validate strip (TransferCreation data) <> []
      /\ (ill_typed (TransferCreation data) = false ->
          In (Issue [Key "vehicle"] "Vehicle name is required for private transfers")
             (validate strip (TransferCreation data)))).
Proof.
  intros Ht. pose proof (vehicle_rule_spec data Ht) as Hv. split.
  - intros H. apply len_ge_spec. rewrite <- Hv.
    apply (transfer_rule_holds strip data
      (Rule Transfer.vehicle_rule "Vehicle name is required for private transfers"
         [Key "vehicle"]) H).
    unfold Transfer.refinements. cbn [In]. tauto.
  - intros Hs.
    assert (Hf : In (Issue [Key "vehicle"] "Vehicle name is required for private transfers")
                    (failing (TransferCreation data))).
    { cbn [failing]. apply failed_In. eexists.
      split; [do 6 right; left; reflexivity|]. split; [|reflexivity].
      cbn [holds]. rewrite Hv. exact Hs. }
    split.
    + eapply validate_fails, Hf.
    + intros E. apply validate_reports; [apply well_typed_not_aborted, E | exact Hf].
Qed.

Lemma private_transfer_needs_vehicle_witness :
  (exists v, Transfer.vehicle
               (transfer_set (Some "Private") (Some "Toyota Alphard") (Some (Num 0))
                  (Transfer.details sample_transfer) sample_transfer) = Some v
             /\ 2 <= String.length v)
  /\ In (Issue [Key "vehicle"] "Vehicle name is required for private transfers")
        (validate stripHtmlTags_model
           (TransferCreation
              (transfer_set (Some "Private") (Some "") (Some (Num 0))
                 (Transfer.details sample_transfer) sample_transfer))).
Proof.
  split.
  - destruct (private_transfer_needs_vehicle stripHtmlTags_model
                (transfer_set (Some "Private") (Some "Toyota Alphard") (Some (Num 0))
                   (Transfer.details sample_transfer) sample_transfer) eq_refl) as [H _].
    apply H. vm_compute. reflexivity.
  - destruct (private_transfer_needs_vehicle stripHtmlTags_model
                (transfer_set (Some "Private") (Some "") (Some (Num 0))
                   (Transfer.details sample_transfer) sample_transfer) eq_refl) as [_ H].
    destruct (H eq_refl) as [_ H2]. apply H2. vm_compute. reflexivity.
Defined.

(** C5 as stated fails: a Private transfer whose vehicle is the bare tag
    [<i>], of raw length 3 and stripped length 0, validates. *)
Lemma markup_vehicle_accepted_counterexample :
  let d := transfer_set (Some "Private") (Some "<i>") (Some (Num 0))
             (Transfer.details sample_transfer) sample_transfer in
  Transfer.type d = Some "Private"
  /\ Transfer.vehicle d = Some "<i>"
  /\ String.length (stripHtmlTags_model "<i>") = 0
  /\ validate stripHtmlTags_model (TransferCreation d) = [].
Proof.
  cbv zeta. repeat split; vm_compute; reflexivity.
Qed.

(** ** The workflow of the creation forms *)

Lemma validFaqs_nil faq :
  (forall f, In f faq -> trim (question f) = "" \/ trim (answer f) = "") ->
  validFaqs faq = [].
Proof.
  unfold validFaqs. induction faq as [|f faq IH]; intros H; simpl; auto.
  destruct (H f (or_introl eq_refl)) as [E|E]; rewrite E; simpl;
    rewrite ?andb_false_r; apply IH; intros g Hg; apply H; right; exact Hg.
Qed.

(** C2. On both creation forms, a draft whose schema validation leaves an
    empty error set but whose FAQ entries all have a blank question or a
    blank answer (an empty list included) is marked invalid by the validate
    button: [validationSuccess] is false after [handleShowErrors]. *)
Theorem blank_faqs_fail_validation strip :
  (forall s : TourForm.State,
      Tour.errors strip (TourForm.values s) = [] ->
      (forall f, In f (Tour.faq (Tour.details (TourForm.values s))) ->
                 trim (question f) = "" \/ trim (answer f) = "") ->
      TourForm.validationSuccess (TourForm.handleShowErrors strip s) = false
      /\ TourForm.hasValidated (TourForm.handleShowErrors strip s) = true)
  /\ (forall s : TransferForm.State,
         Transfer.errors strip (TransferForm.values s) = [] ->
         (forall f, In f (Transfer.faq (Transfer.details (TransferForm.values s))) ->
                    trim (question f) = "" \/ trim (answer f) = "") ->
         TransferForm.validationSuccess (TransferForm.handleShowErrors strip s) = false
         /\ TransferForm.hasValidated (TransferForm.handleShowErrors strip s) = true).
Proof.
  split; intros s He Hf; (split; [|reflexivity]).
  - unfold TourForm.handleShowErrors, Tour.isFormValid. cbn [TourForm.validationSuccess].
    rewrite He, (validFaqs_nil _ Hf). reflexivity.
  - unfold TransferForm.handleShowErrors, Transfer.isFormValid.
    cbn [TransferForm.validationSuccess].
    rewrite He, (validFaqs_nil _ Hf). reflexivity.
Qed.

Lemma blank_faqs_fail_validation_witness :
  let tour := {| TourForm.values := tour_set_faq [] sample_tour;
                 TourForm.hasValidated := false;
                 TourForm.validationSuccess := false;
                 TourForm.showValidationErrors := false |} in
  let transfer :=
    {| TransferForm.values :=
         transfer_set (Some "Van") (Some "") (Some (Num 0))
           (transfer_set_details (Some "<p>Hotel lobby, Tanah Rata</p>")
              (Some "<p>Be there ten minutes early.</p>")
              [ {| question := "Is lunch included?"; answer := "   " |} ]
              (Transfer.details sample_transfer))
           sample_transfer;
       TransferForm.uploadedImageUrl := "https://example.com/i.jpg";
       TransferForm.hasValidated := false;
       TransferForm.validationSuccess := false;
       TransferForm.showValidationErrors := false |} in
  Tour.errors stripHtmlTags_model (TourForm.values tour) = []
  /\ TourForm.validationSuccess (TourForm.handleShowErrors stripHtmlTags_model tour) = false
  /\ Transfer.errors stripHtmlTags_model (TransferForm.values transfer) = []
  /\ TransferForm.validationSuccess
       (TransferForm.handleShowErrors stripHtmlTags_model transfer) = false.
Proof.
  intros tour transfer.
  assert (H1 : Tour.errors stripHtmlTags_model (TourForm.values tour) = [])
    by (vm_compute; reflexivity).
  assert (H2 : Transfer.errors stripHtmlTags_model (TransferForm.values transfer) = [])
    by (vm_compute; reflexivity).
  destruct (blank_faqs_fail_validation stripHtmlTags_model) as [Htour Htransfer].
  split; [exact H1|]. split.
  - apply (Htour tour H1). intros f [].
  - split; [exact H2|]. apply (Htransfer transfer H2).
    intros f [<-|[]]. right. vm_compute. reflexivity.
Defined.

(** The gate of the save buttons: nothing is submitted unless both flags are
    set, and what is submitted is the current values. *)
Lemma save_tour_gate s data :
  TourForm.handleSaveTour s = Submitted data ->
  TourForm.hasValidated s = true /\ TourForm.validationSuccess s = true
  /\ data = TourForm.values s.
Proof.
  unfold TourForm.handleSaveTour.
  destruct (TourForm.hasValidated s), (TourForm.validationSuccess s); simpl;
    intros H; try discriminate H. injection H as <-. auto.
Qed.

Lemma save_transfer_gate s data :
  TransferForm.handleSaveTransfer s = Submitted data ->
  TransferForm.hasValidated s = true /\ TransferForm.validationSuccess s = true
  /\ data = TransferForm.values s.
Proof.
  unfold TransferForm.handleSaveTransfer, TransferForm.onSubmit.
  destruct (TransferForm.hasValidated s), (TransferForm.validationSuccess s); simpl;
    intros H; try discriminate H.
  destruct (TransferForm.uploadedImageUrl s =? ""); [discriminate H|].
  injection H as <-. auto.
Qed.

(** Right after the validate button the flags tell the truth about the
    current values. *)
Lemma validated_values_pass strip (s : TransferForm.State) :
  TransferForm.validationSuccess (TransferForm.handleShowErrors strip s) = true ->
  Transfer.errors strip (TransferForm.values s) = []
  /\ validFaqs (Transfer.faq (Transfer.details (TransferForm.values s))) <> [].
Proof.
  unfold TransferForm.handleShowErrors, Transfer.isFormValid.
  cbn [TransferForm.validationSuccess].
  destruct (Transfer.errors strip (TransferForm.values s)); [|discriminate].
  destruct (validFaqs _); [discriminate|]. intros _. split; [reflexivity | discriminate].
Qed.

(** C9, at the failing input. On the transfer form: a valid draft is
    validated, then its rating is changed to 9; the rating is not among the
    dependencies of the reset effect, so both flags stay set, and the save
    button submits values that the schema rejects. *)
Theorem stale_validation_is_submitted :
  let s0 := {| TransferForm.values := sample_transfer;
               TransferForm.uploadedImageUrl := "https://example.com/i.jpg";
               TransferForm.hasValidated := false;
               TransferForm.validationSuccess := false;
               TransferForm.showValidationErrors := false |} in
  let s1 := TransferForm.handleShowErrors stripHtmlTags_model s0 in
  let edited := transfer_set (Some "Van") (Some "") (Some (Num 9))
                  (Transfer.details sample_transfer) sample_transfer in
  let s2 := TransferForm.field_change edited s1 in
  TransferForm.hasValidated s1 = true /\ TransferForm.validationSuccess s1 = true
  /\ TransferForm.hasValidated s2 = true /\ TransferForm.validationSuccess s2 = true
  /\ TransferForm.handleSaveTransfer s2 = Submitted edited
  /\ Transfer.errors stripHtmlTags_model edited
     = [Issue [Key "rating"] "Number must be less than or equal to 5"].
Proof.
  cbv zeta. repeat split; vm_compute; reflexivity.
Qed.

(** * Further properties of the pages *)

(** ** Trimming and the shape of a slug *)

Section Shapes.

Variable p : ascii -> bool.

Lemma dropWhile_starts s : starts_with p (dropWhile p s) = false.
Proof.
  induction s as [|c r IH]; simpl; auto.
  destruct (p c) eqn:E; simpl; auto.
Qed.

Lemma dropWhile_id s : starts_with p s = false -> dropWhile p s = s.
Proof. destruct s as [|c r]; simpl; auto. intros ->. reflexivity. Qed.

Lemma dropWhileEnd_idem s : dropWhileEnd p (dropWhileEnd p s) = dropWhileEnd p s.
Proof.
  induction s as [|c r IH]; simpl; auto.
  destruct (p c && (dropWhileEnd p r =? "")) eqn:E; simpl; auto.
  rewrite IH, E. reflexivity.
Qed.

Lemma dropWhileEnd_starts s :
  starts_with p s = false -> starts_with p (dropWhileEnd p s) = false.
Proof.
  destruct s as [|c r]; simpl; auto. intros E. rewrite E. simpl. exact E.
Qed.

Lemma dropWhileEnd_ends s : ends_with p (dropWhileEnd p s) = false.
Proof.
  induction s as [|c r IH]; simpl; auto.
  destruct (p c && (dropWhileEnd p r =? "")) eqn:E; simpl; auto.
  destruct (dropWhileEnd p r) as [|c' r'] eqn:Er; simpl in *.
  - rewrite andb_true_r in E. exact E.
  - exact IH.
Qed.

Lemma dropWhileEnd_id s : ends_with p s = false -> dropWhileEnd p s = s.
Proof.
  induction s as [|c r IH]; simpl; auto.
  destruct r as [|c' r'].
  - intros E. simpl. rewrite E. reflexivity.
  - intros E. rewrite IH by exact E. simpl. rewrite andb_false_r. reflexivity.
Qed.

Lemma has_double_dropWhile s :
  has_double p s = false -> has_double p (dropWhile p s) = false.
Proof.
  induction s as [|c r IH]; simpl; auto.
  intros H. apply orb_false_iff in H. destruct H as [_ H].
  destruct (p c) eqn:E; auto. simpl. rewrite E. simpl. exact H.
Qed.

Lemma starts_dropWhileEnd s :
  starts_with p (dropWhileEnd p s) = true -> starts_with p s = true.
Proof.
  destruct s as [|c r]; simpl; auto.
  destruct (p c && (dropWhileEnd p r =? "")); simpl; auto. discriminate.
Qed.

Lemma has_double_dropWhileEnd s :
  has_double p s = false -> has_double p (dropWhileEnd p s) = false.
Proof.
  induction s as [|c r IH]; simpl; auto.
  intros H. apply orb_false_iff in H. destruct H as [H1 H2].
  destruct (p c && (dropWhileEnd p r =? "")); simpl; auto.
  rewrite (IH H2), orb_false_r.
  destruct (p c); simpl in *; auto.
  destruct (starts_with p (dropWhileEnd p r)) eqn:E; auto.
  apply starts_dropWhileEnd in E. congruence.
Qed.

(** Without a character of the class, nothing is dropped or replaced. *)
Lemma dropWhileEnd_none s :
  all_chars (fun c => negb (p c)) s = true -> dropWhileEnd p s = s.
Proof.
  induction s as [|c r IH]; simpl; auto.
  intros H. apply andb_true_iff in H. destruct H as [Hc Hr].
  rewrite (IH Hr). destruct (p c); [discriminate Hc | reflexivity].
Qed.

Lemma dropWhile_none s :
  all_chars (fun c => negb (p c)) s = true -> dropWhile p s = s.
Proof.
  destruct s as [|c r]; simpl; auto.
  intros H. apply andb_true_iff in H. destruct H as [Hc _].
  destruct (p c); [discriminate Hc | reflexivity].
Qed.

Lemma replace_runs_none s in_run :
  all_chars (fun c => negb (p c)) s = true -> replace_runs p in_run s = s.
Proof.
  revert in_run. induction s as [|c r IH]; simpl; auto.
  intros in_run H. apply andb_true_iff in H. destruct H as [Hc Hr].
  destruct (p c); [discriminate Hc|]. rewrite (IH false Hr). reflexivity.
Qed.

Lemma filter_chars_id s : all_chars p s = true -> filter_chars p s = s.
Proof.
  induction s as [|c r IH]; simpl; auto.
  intros H. apply andb_true_iff in H. destruct H as [Hc Hr].
  rewrite Hc, (IH Hr). reflexivity.
Qed.

Lemma all_chars_weaken (q : ascii -> bool) s :
  (forall c, p c = true -> q c = true) -> all_chars p s = true -> all_chars q s = true.
Proof.
  intros Hpq. induction s as [|c r IH]; simpl; auto.
  intros H. apply andb_true_iff in H. destruct H as [Hc Hr].
  rewrite (Hpq c Hc), (IH Hr). reflexivity.
Qed.

Lemma map_chars_id (f : ascii -> ascii) s :
  (forall c, p c = true -> f c = c) -> all_chars p s = true -> map_chars f s = s.
Proof.
  intros Hf. induction s as [|c r IH]; simpl; auto.
  intros H. apply andb_true_iff in H. destruct H as [Hc Hr].
  rewrite (Hf c Hc), (IH Hr). reflexivity.
Qed.

End Shapes.

Lemma trim_idempotent s : trim (trim s) = trim s.
Proof.
  unfold trim.
  rewrite (dropWhile_id is_space (dropWhileEnd is_space (dropWhile is_space s))).
  - apply dropWhileEnd_idem.
  - apply dropWhileEnd_starts, dropWhile_starts.
Qed.

(** Replacing the runs of hyphens leaves no two hyphens in a row, and no
    hyphen in front when the text before ended in one. *)
Lemma replace_runs_hyphen s :
  forall in_run,
    has_double is_hyphen (replace_runs is_hyphen in_run s) = false
    /\ (in_run = true ->
        starts_with is_hyphen (replace_runs is_hyphen in_run s) = false).
Proof.
  induction s as [|c r IH]; intros in_run; simpl; [split; auto|].
  destruct (is_hyphen c) eqn:E.
  - destruct (IH true) as [Hd Hs]. destruct in_run; simpl.
    + split; auto.
    + rewrite Hs, Hd by reflexivity. split; [reflexivity | discriminate].
  - destruct (IH false) as [Hd _]. simpl. rewrite E, Hd. simpl.
    split; auto.
Qed.

Lemma replace_runs_single s in_run :
  has_double is_hyphen s = false ->
  (in_run = true -> starts_with is_hyphen s = false) ->
  replace_runs is_hyphen in_run s = s.
Proof.
  revert in_run. induction s as [|c r IH]; simpl; auto.
  intros in_run Hd Hs. apply orb_false_iff in Hd. destruct Hd as [Hd1 Hd2].
  destruct (is_hyphen c) eqn:E.
  - destruct in_run; [specialize (Hs eq_refl); discriminate Hs|].
    simpl in Hd1. rewrite (IH true Hd2 (fun _ => Hd1)).
    unfold is_hyphen in E. apply Ascii.eqb_eq in E. subst c. reflexivity.
  - rewrite (IH false Hd2) by discriminate. reflexivity.
Qed.

Lemma slug_shape t :
  starts_with is_hyphen (generatedSlug t) = false
  /\ ends_with is_hyphen (generatedSlug t) = false
  /\ has_double is_hyphen (generatedSlug t) = false.
Proof.
  unfold generatedSlug. split; [|split].
  - apply dropWhileEnd_starts, dropWhile_starts.
  - apply dropWhileEnd_ends.
  - apply has_double_dropWhileEnd, has_double_dropWhile, replace_runs_hyphen.
Qed.

(** X1. A generated slug neither starts nor ends with a hyphen and has no
    two hyphens in a row, whatever the title. *)
Theorem generated_slug_hyphens (watchTitle : string) :
  starts_with is_hyphen (generatedSlug watchTitle) = false
  /\ ends_with is_hyphen (generatedSlug watchTitle) = false
  /\ has_double is_hyphen (generatedSlug watchTitle) = false.
Proof. apply slug_shape. Qed.

(** Facts about single characters, checked on each of the 256. *)
Ltac every_char c :=
  destruct c as [[] [] [] [] [] [] [] []]; vm_compute; intros;
  first [reflexivity | discriminate].

Lemma slug_char_not_space c : slug_char c = true -> negb (is_space c) = true.
Proof. every_char c. Qed.

Lemma slug_char_keep c : slug_char c = true -> slug_keep c = true.
Proof. every_char c. Qed.

Lemma slug_char_lower c : slug_char c = true -> lower_char c = c.
Proof. every_char c. Qed.

(** X2. Generating a slug from a generated slug gives it back: the
    generation is idempotent. *)
Theorem generated_slug_idempotent (watchTitle : string) :
  generatedSlug (generatedSlug watchTitle) = generatedSlug watchTitle.
Proof.
  pose proof (generatedSlug_chars watchTitle) as Hc.
  destruct (slug_shape watchTitle) as [Hs [He Hd]].
  set (g := generatedSlug watchTitle) in *.
  assert (Hn : all_chars (fun c => negb (is_space c)) g = true)
    by (apply (all_chars_weaken slug_char); auto using slug_char_not_space).
  unfold generatedSlug at 1. unfold toLowerCase, trim.
  rewrite (map_chars_id slug_char) by auto using slug_char_lower.
  rewrite (dropWhile_none is_space g Hn), (dropWhileEnd_none is_space g Hn).
  rewrite (filter_chars_id slug_keep)
    by (apply (all_chars_weaken slug_char); auto using slug_char_keep).
  rewrite (replace_runs_none is_space g false Hn).
  rewrite (replace_runs_single g false Hd) by discriminate.
  rewrite (dropWhile_id is_hyphen g Hs). apply dropWhileEnd_id, He.
Qed.

(** *** When the slug is empty *)

Section NoAlnum.

Variable q : ascii -> bool.
Hypothesis q_not_alnum : forall c, q c = true -> is_alnum c = false.

Lemma no_alnum_dropWhile s : no_alnum (dropWhile q s) = no_alnum s.
Proof.
  unfold no_alnum. induction s as [|c r IH]; simpl; auto.
  destruct (q c) eqn:E; simpl; auto. rewrite (q_not_alnum c E). exact IH.
Qed.

Lemma no_alnum_dropWhileEnd s : no_alnum (dropWhileEnd q s) = no_alnum s.
Proof.
  unfold no_alnum. induction s as [|c r IH]; simpl; auto.
  destruct (q c && (dropWhileEnd q r =? "")) eqn:E; simpl.
  - apply andb_true_iff in E. destruct E as [Ec Er].
    apply String.eqb_eq in Er. rewrite Er in IH. simpl in IH.
    rewrite (q_not_alnum c Ec), <- IH. reflexivity.
  - rewrite IH. reflexivity.
Qed.

Lemma no_alnum_replace_runs s :
  is_alnum "-"%char = false ->
  forall in_run, no_alnum (replace_runs q in_run s) = no_alnum s.
Proof.
  intros Hh. unfold no_alnum. induction s as [|c r IH]; intros in_run; simpl; auto.
  destruct (q c) eqn:E.
  - rewrite (q_not_alnum c E). destruct in_run; simpl; rewrite ?Hh; simpl; apply IH.
  - simpl. rewrite IH. reflexivity.
Qed.

End NoAlnum.

Lemma no_alnum_filter (keep : ascii -> bool) s :
  (forall c, is_alnum c = true -> keep c = true) ->
  no_alnum (filter_chars keep s) = no_alnum s.
Proof.
  intros Hk. unfold no_alnum. induction s as [|c r IH]; simpl; auto.
  destruct (keep c) eqn:E; simpl; rewrite IH; auto.
  destruct (is_alnum c) eqn:Ea; auto. rewrite (Hk c Ea) in E. discriminate E.
Qed.

Lemma space_not_alnum c : is_space c = true -> is_alnum c = false.
Proof. every_char c. Qed.

Lemma hyphen_not_alnum c : is_hyphen c = true -> is_alnum c = false.
Proof. every_char c. Qed.

Lemma alnum_keep c : is_alnum c = true -> slug_keep c = true.
Proof. every_char c. Qed.

Lemma slug_char_hyphen c : slug_char c = true -> is_alnum c = false -> is_hyphen c = true.
Proof. every_char c. Qed.

Lemma no_alnum_generatedSlug t :
  no_alnum (generatedSlug t) = no_alnum (toLowerCase t).
Proof.
  unfold generatedSlug, trim.
  rewrite (no_alnum_dropWhileEnd is_hyphen hyphen_not_alnum).
  rewrite (no_alnum_dropWhile is_hyphen hyphen_not_alnum).
  rewrite (no_alnum_replace_runs is_hyphen hyphen_not_alnum) by reflexivity.
  rewrite (no_alnum_replace_runs is_space space_not_alnum) by reflexivity.
  rewrite (no_alnum_filter slug_keep) by exact alnum_keep.
  rewrite (no_alnum_dropWhileEnd is_space space_not_alnum).
  apply (no_alnum_dropWhile is_space space_not_alnum).
Qed.

Lemma no_alnum_map s :
  no_alnum (toLowerCase s) = all_chars (fun c => negb (is_alnum (lower_char c))) s.
Proof.
  unfold no_alnum, toLowerCase. induction s as [|c r IH]; simpl; auto.
  rewrite IH. reflexivity.
Qed.


(** ** Tags and departure times *)

Lemma mem_In s l : mem s l = true <-> In s l.
Proof.
  induction l as [|x r IH]; simpl; [split; [discriminate | tauto]|].
  rewrite orb_true_iff, IH, String.eqb_eq. split; intros [H|H]; auto.
Qed.

Lemma remove_at_In {A : Type} (x : A) i l : In x (remove_at i l) -> In x l.
Proof.
  revert i. induction l as [|y r IH]; intros [|k]; simpl; auto.
  intros [H|H]; eauto.
Qed.

Lemma remove_at_NoDup {A : Type} i (l : list A) : NoDup l -> NoDup (remove_at i l).
Proof.
  revert i. induction l as [|y r IH]; intros [|k] H; simpl; auto;
    inversion H; subst; auto.
  constructor; auto. intros Hin. apply remove_at_In in Hin. contradiction.
Qed.

Lemma remove_at_length {A : Type} i (l : list A) :
  List.length l <= S (List.length (remove_at i l)).
Proof.
  revert i. induction l as [|y r IH]; intros [|k]; simpl; auto.
  specialize (IH k). lia.
Qed.

Lemma set_at_length {A : Type} i (v : A) l : List.length (set_at i v l) = List.length l.
Proof. revert i. induction l as [|y r IH]; intros [|k]; simpl; auto. Qed.

Lemma tag_step_clean value e :
  NoDup value /\ Forall clean value ->
  NoDup (tag_step value e) /\ Forall clean (tag_step value e).
Proof.
  intros [Hn Hc]. destruct e as [newTag|index]; simpl.
  - unfold addTag.
    destruct (trim newTag =? "") eqn:Eb, (mem (trim newTag) value) eqn:Em; simpl; auto.
    split.
    + apply NoDup_app; [exact Hn | repeat constructor; auto | ].
      intros x Hx [<-|[]]. apply mem_In in Hx. congruence.
    + apply Forall_app. split; auto. repeat constructor.
      * intros E. rewrite E in Eb. discriminate Eb.
      * apply trim_idempotent.
  - split; [apply remove_at_NoDup, Hn|].
    rewrite Forall_forall in *. intros x Hx. apply Hc. eapply remove_at_In, Hx.
Qed.

Lemma tags_clean events :
  forall value, NoDup value /\ Forall clean value ->
  NoDup (fold_left tag_step events value)
  /\ Forall clean (fold_left tag_step events value).
Proof.
  induction events as [|e events IH]; intros value H; simpl; auto.
  apply IH, tag_step_clean, H.
Qed.

Lemma elements_pass msg p l :
  Forall (fun t => t <> "") l ->
  forall k, concat (map issues (parse_elements (some_string [min_len 1 msg]) p k l)) = [].
Proof.
  induction 1 as [|t l Ht _ IH]; intros k; simpl; auto.
  rewrite IH. destruct t as [|c t]; [congruence | reflexivity].
Qed.

(** X4. Whatever is typed into the tag input and whichever tags are added
    and removed, starting from the empty default list the tags stay free of
    duplicates, none is empty or has a space around it; so the only issue
    that the tags field of the schemas can raise is the one of the empty
    list. *)
Theorem tags_stay_clean (events : list tag_event) (p : path) :
  let tags := fold_left tag_step events [] in
  NoDup tags
  /\ Forall clean tags
  /\ issues (z_array (some_string [min_len 1 "String must contain at least 1 character(s)"])
               (Some (1, "At least one tag is required")) p tags)
     = match tags with
       | [] => [Issue p "At least one tag is required"]
       | _ :: _ => []
       end.
Proof.
  intros tags.
  destruct (tags_clean events []) as [Hn Hc]; [split; constructor|].
  fold tags in Hn, Hc. split; [exact Hn|]. split; [exact Hc|].
  unfold z_array, merge. cbn [map issues concat].
  rewrite elements_pass.
  - destruct tags; reflexivity.
  - eapply Forall_impl; [|exact Hc]. intros t [H _]. exact H.
Qed.

(** X5. After [addTag] with an input that is not blank, the trimmed input is
    among the tags, and a second [addTag] with the same input changes
    nothing and says that the tag exists; the same on the edit page. *)
Theorem add_tag_twice (newTag : string) (value : list string) :
  trim newTag <> "" ->
  (let value' := fst (fst (addTag newTag value)) in
   In (trim newTag) value'
   /\ addTag newTag value' = (value', newTag, Some "Tag already exists"))
  /\ (let value' := fst (fst (EditPage.addTag newTag value)) in
      In (trim newTag) value'
      /\ EditPage.addTag newTag value' = (value', newTag, Some "Tag already exists")).
Proof.
  intros Hb. apply String.eqb_neq in Hb.
  assert (Hin : forall v, mem (trim newTag) v = false ->
                          mem (trim newTag) (v ++ [trim newTag]) = true).
  { intros v _. apply mem_In, in_or_app. right. left. reflexivity. }
  split; cbv zeta; unfold addTag, EditPage.addTag; rewrite Hb;
    destruct (mem (trim newTag) value) eqn:Em; simpl;
    rewrite ?Hb, ?Em, ?(Hin value Em); simpl;
    (split; [apply mem_In; auto | reflexivity]).
Qed.

Lemma add_tag_twice_witness :
  In "hiking" (fst (fst (addTag "  hiking " ["tea"])))
  /\ addTag "  hiking " (fst (fst (addTag "  hiking " ["tea"])))
     = (["tea"; "hiking"], "  hiking ", Some "Tag already exists").
Proof.
  destruct (add_tag_twice "  hiking " ["tea"]) as [H _]; [vm_compute; discriminate|].
  exact H.
Defined.

Lemma time_step_nonempty value e : value <> [] -> time_step value e <> [].
Proof.
  intros H. destruct e as [i v|i|]; simpl.
  - intros E. apply (f_equal (@List.length string)) in E.
    rewrite set_at_length in E. destruct value; [congruence | discriminate E].
  - destruct (1 <? List.length value)%nat eqn:E; auto.
    apply Nat.ltb_lt in E. pose proof (remove_at_length i value) as Hl.
    intros N. rewrite N in Hl. simpl in Hl. lia.
  - destruct value; discriminate.
Qed.

(** X6. On the creation pages the departure times never become empty:
    starting from a list that is not empty (the default has one time),
    editing, removing and adding rows leaves at least one, so the departure
    times field of the schema raises no issue. *)
Theorem departure_times_never_empty (start : list string) (events : list time_event)
  (p : path) :
  start <> [] ->
  fold_left time_step events start <> []
  /\ issues (z_array (some_string []) (Some (1, "At least one departure time is required"))
               p (fold_left time_step events start)) = [].
Proof.
  intros H.
  assert (Hne : fold_left time_step events start <> []).
  { revert start H. induction events as [|e events IH]; intros start H; simpl; auto.
    apply IH, time_step_nonempty, H. }
  split; [exact Hne|].
  unfold z_array, merge. cbn [map issues concat].
  assert (He : forall l k,
             concat (map issues (parse_elements (some_string []) p k l)) = []).
  { induction l as [|x l IH]; intros k; simpl; auto. }
  rewrite He. destruct (fold_left time_step events start); [congruence | reflexivity].
Qed.

Lemma departure_times_never_empty_witness :
  fold_left time_step [RemoveTime 0; AddTime; SetTime 1 "14:30"; RemoveTime 0] ["08:00"]
  <> []
  /\ issues (z_array (some_string []) (Some (1, "At least one departure time is required"))
               [Key "departureTimes"]
               (fold_left time_step [RemoveTime 0; AddTime; SetTime 1 "14:30"; RemoveTime 0]
                  ["08:00"])) = [].
Proof.
  apply (departure_times_never_empty ["08:00"]). discriminate.
Defined.

(** ** What a valid draft satisfies *)

Lemma failed_nil_iff {D : Type} (rules : list (rule D)) data :
  failed rules data = [] <-> forallb (fun r => holds r data) rules = true.
Proof.
  unfold failed. induction rules as [|r rules IH]; simpl; [tauto|].
  destruct (holds r data); simpl; [exact IH | split; discriminate].
Qed.

Lemma failing_nil_iff d : failing d = [] <-> refinements_hold d = true.
Proof. destruct d; apply failed_nil_iff. Qed.

(** X7. A draft validates exactly when no rule of a field raises an issue
    and every cross-field refinement holds; this is so for the three
    validators. *)
Theorem validates_iff strip d :
  validate strip d = []
  <-> issues (fields strip d) = [] /\ refinements_hold d = true.
Proof.
  rewrite <- failing_nil_iff. split; [apply validate_nil|].
  intros [Hf Hr].
  assert (E : st (fields strip d) <> aborted).
  { apply (sound_fields strip d) in Hf. congruence. }
  rewrite validate_parsed, Hf, Hr by exact E. reflexivity.
Qed.

(** X8. The error set always begins with all the issues of the fields, in
    the order of the fields: no failure elsewhere hides the error of a
    field; what follows them are issues of cross-field refinements only. *)
Theorem field_errors_always_reported strip d :
  exists rest,
    validate strip d = (issues (fields strip d) ++ rest)%list
    /\ forall i, In i rest -> In i (crossField d).
Proof.
  destruct (status_eq_dec (st (fields strip d)) aborted) as [E|E].
  - exists []. rewrite validate_aborted, app_nil_r by exact E.
    split; [reflexivity | intros i []].
  - exists (failing d). rewrite validate_parsed by exact E.
    split; [reflexivity | apply failing_crossField].
Qed.

Lemma z_number_passes lo msg p v :
  issues (z_number [min_num lo msg] p v) = [] ->
  exists x, v = Some (Num x) /\ (lo <= x)%Q.
Proof.
  destruct v as [[|x]|]; simpl; try discriminate. rewrite app_nil_r.
  intros H. apply check_passes, Qle_bool_iff in H. exists x. auto.
Qed.

Lemma optional_number_passes lo msg p v :
  issues (optional (z_number [min_num lo msg]) p v) = [] ->
  v = None \/ exists x, v = Some (Num x) /\ (lo <= x)%Q.
Proof.
  destruct v as [n|]; [|auto]. intros H. right.
  apply (z_number_passes lo msg p (Some n)), H.
Qed.

Lemma z_enum_passes values p v :
  issues (z_enum values p v) = [] -> exists s, v = Some s /\ In s values.
Proof.
  destruct v as [s|]; simpl; [|discriminate].
  destruct (mem s values) eqn:E; [|discriminate].
  intros _. exists s. split; [reflexivity | apply mem_In, E].
Qed.

Lemma rule_holds strip d :
  validate strip d = [] ->
  match d with
  | TourCreation data => forall r, In r Tour.refinements -> holds r data = true
  | TourEdition data => forall r, In r TourEdit.refinements -> holds r data = true
  | TransferCreation data => forall r, In r Transfer.refinements -> holds r data = true
  end.
Proof.
  intros H. apply validate_nil in H. destruct H as [_ H].
  destruct d; cbn [failing] in H; apply (failed_nil _ _ H).
Qed.

Lemma js_gt_false a b : js_gt (Some (Num a)) (Some (Num b)) = false -> (a <= b)%Q.
Proof. simpl. intros H. apply negb_false_iff, Qle_bool_iff in H. exact H. Qed.

(** X9. A draft that validates has numeric prices with
    [0 <= newPrice <= oldPrice], under each of the three validators. *)
Theorem valid_prices_are_ordered strip d :
  validate strip d = [] ->
  exists a b, newPrice d = Some (Num a) /\ oldPrice d = Some (Num b)
              /\ (0 <= a)%Q /\ (a <= b)%Q.
Proof.
  intros H. pose proof (rule_holds strip d H) as Hr.
  apply validate_nil in H. destruct H as [H _].
  destruct d as [data|data|data]; cbn [fields newPrice oldPrice] in *.
  - unfold Tour.tourObject in H.
    member H [Key "newPrice"]. member H [Key "oldPrice"].
    apply z_number_passes in Hmember, Hmember0.
    destruct Hmember as [a [Ea Ha]], Hmember0 as [b [Eb Hb]].
    exists a, b. repeat split; auto.
    specialize (Hr _ (or_introl eq_refl)). cbn [holds] in Hr.
    unfold Tour.price_rule in Hr. rewrite Ea, Eb in Hr.
    apply js_gt_false. destruct (js_gt _ _); [discriminate Hr | reflexivity].
  - unfold TourEdit.tourObject in H.
    member H [Key "newPrice"]. member H [Key "oldPrice"].
    apply z_number_passes in Hmember, Hmember0.
    destruct Hmember as [a [Ea Ha]], Hmember0 as [b [Eb Hb]].
    exists a, b. repeat split; auto.
    specialize (Hr _ (or_introl eq_refl)). cbn [holds] in Hr.
    unfold TourEdit.price_rule in Hr. rewrite Ea, Eb in Hr.
    apply js_gt_false. destruct (js_gt _ _); [discriminate Hr | reflexivity].
  - unfold Transfer.transferObject in H.
    member H [Key "newPrice"]. member H [Key "oldPrice"].
    apply z_number_passes in Hmember, Hmember0.
    destruct Hmember as [a [Ea Ha]], Hmember0 as [b [Eb Hb]].
    exists a, b. repeat split; auto.
    specialize (Hr _ (or_introl eq_refl)). cbn [holds] in Hr.
    unfold Transfer.price_rule in Hr. rewrite Ea, Eb in Hr.
    apply js_gt_false. destruct (js_gt _ _); [discriminate Hr | reflexivity].
Qed.

Lemma valid_prices_are_ordered_witness :
  exists a b, newPrice (TransferCreation sample_transfer) = Some (Num a)
              /\ oldPrice (TransferCreation sample_transfer) = Some (Num b)
              /\ (0 <= a)%Q /\ (a <= b)%Q.
Proof.
  apply (valid_prices_are_ordered stripHtmlTags_model (TransferCreation sample_transfer)).
  vm_compute. reflexivity.
Defined.

Lemma js_le_false a b : js_le (Some (Num a)) (Some (Num b)) = false -> (b < a)%Q.
Proof.
  simpl. intros H. apply Qnot_le_lt. intros N. apply Qle_bool_iff in N. congruence.
Qed.

Lemma truthy_from_one x : (1 <= x)%Q -> truthy_num (Some (Num x)) = true.
Proof.
  intros H. simpl. apply negb_true_iff. destruct (Qeq_bool x 0) eqn:E; auto.
  apply Qeq_bool_iff in E. rewrite E in H. exfalso. revert H. apply Qlt_not_le. reflexivity.
Qed.

(** X10. A draft that validates and is not private (a co-tour; a Van or
    Van + Ferry transfer) has numeric person counts with
    [1 <= minimumPerson < maximumPerson] and a numeric child price that is
    not negative, under each of the three validators. *)
Theorem valid_person_counts strip d :
  is_private d = false ->
  validate strip d = [] ->
  exists a b c,
    maximumPerson d = Some (Num a) /\ minimumPerson d = Some (Num b)
    /\ childPrice d = Some (Num c)
    /\ (1 <= b)%Q /\ (b < a)%Q /\ (0 <= c)%Q.
Proof.
  intros Hp H. pose proof (rule_holds strip d H) as Hr.
  apply validate_nil in H. destruct H as [H _].
  destruct d as [data|data|data];
    cbn [fields maximumPerson minimumPerson childPrice is_private] in *.
  - unfold Tour.tourObject in H.
    member H [Key "maximumPerson"]. member H [Key "minimumPerson"].
    member H [Key "childPrice"].
    apply z_number_passes in Hmember, Hmember0, Hmember1.
    destruct Hmember as [a [Ea Ha]], Hmember0 as [b [Eb Hb]], Hmember1 as [c [Ec Hc]].
    exists a, b, c. repeat split; auto.
    specialize (Hr _ (or_intror (or_introl eq_refl))). cbn [holds] in Hr.
    unfold Tour.person_rule in Hr. rewrite Hp, Ea, Eb in Hr. cbn [negb andb] in Hr.
    apply js_le_false. destruct (js_le _ _); [discriminate Hr | reflexivity].
  - unfold TourEdit.tourObject in H.
    member H [Key "maximumPerson"]. member H [Key "minimumPerson"].
    member H [Key "childPrice"].
    apply z_number_passes in Hmember, Hmember0, Hmember1.
    destruct Hmember as [a [Ea Ha]], Hmember0 as [b [Eb Hb]], Hmember1 as [c [Ec Hc]].
    exists a, b, c. repeat split; auto.
    specialize (Hr _ (or_intror (or_introl eq_refl))). cbn [holds] in Hr.
    unfold TourEdit.person_rule in Hr. rewrite Hp, Ea, Eb in Hr. cbn [negb andb] in Hr.
    apply js_le_false. destruct (js_le _ _); [discriminate Hr | reflexivity].
  - unfold Transfer.transferObject in H.
    member H [Key "maximumPerson"]. member H [Key "minimumPerson"].
    member H [Key "childPrice"].
    apply optional_number_passes in Hmember, Hmember0, Hmember1.
    pose proof (Hr _ (or_intror (or_introl eq_refl))) as Hreq.
    cbn [holds] in Hreq. unfold Transfer.required_rule in Hreq.
    rewrite Hp in Hreq. cbn [negb] in Hreq.
    apply andb_true_iff in Hreq. destruct Hreq as [Hreq Hmax].
    apply andb_true_iff in Hreq. destruct Hreq as [Hchild Hmin].
    destruct Hmember as [E|[a [Ea Ha]]]; [rewrite E in Hmax; discriminate Hmax|].
    destruct Hmember0 as [E|[b [Eb Hb]]]; [rewrite E in Hmin; discriminate Hmin|].
    destruct Hmember1 as [E|[c [Ec Hc]]]; [rewrite E in Hchild; discriminate Hchild|].
    exists a, b, c. repeat split; auto.
    specialize (Hr _ (or_intror (or_intror (or_introl eq_refl)))). cbn [holds] in Hr.
    unfold Transfer.person_rule in Hr. rewrite Hp, Ea, Eb in Hr.
    rewrite (truthy_from_one a), (truthy_from_one b) in Hr; auto.
    cbn [negb andb] in Hr.
    apply js_le_false. destruct (js_le _ _); [discriminate Hr | reflexivity].
Qed.

Lemma valid_person_counts_witness :
  exists a b c,
    maximumPerson (TransferCreation sample_transfer) = Some (Num a)
    /\ minimumPerson (TransferCreation sample_transfer) = Some (Num b)
    /\ childPrice (TransferCreation sample_transfer) = Some (Num c)
    /\ (1 <= b)%Q /\ (b < a)%Q /\ (0 <= c)%Q.
Proof.
  apply (valid_person_counts stripHtmlTags_model (TransferCreation sample_transfer));
    vm_compute; reflexivity.
Defined.

Lemma tour_vehicle_rule_spec data :
  Tour.type data = Some "private" ->
  Tour.vehicle_rule data
  = match Tour.vehicle data with
    | Some v => negb (trim v =? "")
    | None => false
    end.
Proof.
  intros Ht. unfold Tour.vehicle_rule. rewrite Ht. simpl.
  destruct (Tour.vehicle data) as [[|c v]|]; reflexivity.
Qed.

(** X11. A private tour validates on the creation page only with a vehicle
    that is not blank; without a vehicle, or with one made of spaces,
    validation fails, and the error set has the entry of the vehicle rule at
    [vehicle] unless a field of the draft holds a value of the wrong type. *)
Theorem private_tour_needs_vehicle strip data :
  Tour.type data = Some "private" ->
  (validate strip (TourCreation data) = [] ->
   exists v, Tour.vehicle data = Some v /\ trim v <> "")
  /\ ((Tour.vehicle data = None
       \/ exists v, Tour.vehicle data = Some v /\ trim v = "") ->
      validate strip (TourCreation data) <> []
      /\ (ill_typed (TourCreation data) = false ->
          In (Issue [Key "vehicle"] "Vehicle is required for private tours")
             (validate strip (TourCreation data)))).
Proof.
  intros Ht. pose proof (tour_vehicle_rule_spec data Ht) as Hv. split.
  - intros H. pose proof (rule_holds strip _ H) as Hr. cbv beta iota in Hr.
    specialize (Hr _ (or_intror (or_intror (or_introl eq_refl)))).
    cbn [holds] in Hr. rewrite Hv in Hr.
    destruct (Tour.vehicle data) as [v|]; [|discriminate Hr].
    exists v. split; [reflexivity|].
    apply negb_true_iff, String.eqb_neq in Hr. exact Hr.
  - intros Hb.
    assert (Hf : In (Issue [Key "vehicle"] "Vehicle is required for private tours")
                    (failing (TourCreation data))).
    { cbn [failing]. apply failed_In. eexists.
      split; [do 2 right; left; reflexivity|]. split; [|reflexivity].
      cbn [holds]. rewrite Hv. destruct Hb as [->|[v [-> E]]]; [reflexivity|].
      rewrite E. reflexivity. }
    split.
    + eapply validate_fails, Hf.
    + intros E. apply validate_reports; [apply well_typed_not_aborted, E | exact Hf].
Qed.

Lemma private_tour_needs_vehicle_witness :
  (exists v, Tour.vehicle (TourPage.set_vehicle (Some "Toyota Alphard") (Some (Num 6))
                             (tour_set_faq [ {| question := "Q"; answer := "A" |} ]
                                sample_tour_private)) = Some v
             /\ trim v <> "")
  /\ In (Issue [Key "vehicle"] "Vehicle is required for private tours")
        (validate stripHtmlTags_model
           (TourCreation (TourPage.set_vehicle (Some "   ") (Some (Num 6))
                            sample_tour_private))).
Proof.
  split.
  - destruct (private_tour_needs_vehicle stripHtmlTags_model
                (TourPage.set_vehicle (Some "Toyota Alphard") (Some (Num 6))
                   (tour_set_faq [ {| question := "Q"; answer := "A" |} ]
                      sample_tour_private)) eq_refl) as [H _].
    apply H. vm_compute. reflexivity.
  - destruct (private_tour_needs_vehicle stripHtmlTags_model
                (TourPage.set_vehicle (Some "   ") (Some (Num 6)) sample_tour_private)
                eq_refl) as [_ H].
    destruct H as [_ H]; [right; exists "   "; split; reflexivity|].
    apply H. vm_compute. reflexivity.
Defined.

Lemma z_string_min n msg p s :
  issues (z_string [min_len n msg] p (Some s)) = [] -> n <= String.length s.
Proof.
  unfold z_string, merge. cbn [map run_string_check issues concat st].
  rewrite app_nil_r. intros H. apply check_passes, Nat.leb_le in H. exact H.
Qed.

(** X12. A transfer whose [from] and [to] are equal up to the case of their
    letters never validates, and the error set has the entry of the route
    rule at [to] unless a field of the draft holds a value of the wrong
    type; a transfer that validates has two places of at least two
    characters that differ also when lowercased. *)
Theorem same_route_rejected strip data f t :
  Transfer.from data = Some f -> Transfer.to data = Some t ->
  (toLowerCase f = toLowerCase t ->
   validate strip (TransferCreation data) <> []
   /\ (ill_typed (TransferCreation data) = false ->
       In (Issue [Key "to"] "From and To locations must be different")
          (validate strip (TransferCreation data))))
  /\ (validate strip (TransferCreation data) = [] ->
      toLowerCase f <> toLowerCase t
      /\ 2 <= String.length f /\ 2 <= String.length t).
Proof.
  intros Ef Et. split.
  - intros E.
    assert (Hf : In (Issue [Key "to"] "From and To locations must be different")
                    (failing (TransferCreation data))).
    { cbn [failing]. apply failed_In. eexists.
      split; [do 3 right; left; reflexivity|]. split; [|reflexivity].
      cbn [holds]. unfold Transfer.route_rule. rewrite Ef, Et, E, String.eqb_refl.
      reflexivity. }
    split.
    + eapply validate_fails, Hf.
    + intros W. apply validate_reports; [apply well_typed_not_aborted, W | exact Hf].
  - intros H. pose proof (rule_holds strip _ H) as Hr. cbv beta iota in Hr.
    specialize (Hr _ (or_intror (or_intror (or_intror (or_introl eq_refl))))).
    cbn [holds] in Hr. unfold Transfer.route_rule in Hr. rewrite Ef, Et in Hr.
    apply validate_nil in H. destruct H as [H _]. cbn [fields] in H.
    unfold Transfer.transferObject in H.
    member H [Key "from"]. member H [Key "to"].
    rewrite Ef in Hmember. rewrite Et in Hmember0.
    apply z_string_min in Hmember, Hmember0.
    repeat split; auto.
    intros E. rewrite E, String.eqb_refl in Hr. discriminate Hr.
Qed.

Lemma same_route_rejected_witness :
  In (Issue [Key "to"] "From and To locations must be different")
     (validate stripHtmlTags_model (TransferCreation sample_round_trip))
  /\ toLowerCase "Tanah Rata" <> toLowerCase "Kuala Lumpur".
Proof.
  split.
  - destruct (same_route_rejected stripHtmlTags_model sample_round_trip
                "Tanah Rata" "TANAH RATA" eq_refl eq_refl) as [H _].
    destruct H as [_ H]; [vm_compute; reflexivity|].
    apply H. vm_compute. reflexivity.
  - destruct (same_route_rejected stripHtmlTags_model sample_transfer
                "Tanah Rata" "Kuala Lumpur" eq_refl eq_refl) as [_ H].
    apply H. vm_compute. reflexivity.
Defined.

(** X13. The label lists of the two tour validators differ in the case of
    one entry: a creation draft labelled [Best Seller] and an edit draft
    labelled [Best seller] never validate, and a label under which both a
    creation draft and an edit draft validate is one of Recommended,
    Popular, Best Value and None. *)
Theorem tour_labels_differ strip :
  (forall data, Tour.label data = Some "Best Seller" ->
                validate strip (TourCreation data) <> [])
  /\ (forall data, TourEdit.label data = Some "Best seller" ->
                   validate strip (TourEdition data) <> [])
  /\ (forall created edited l,
         Tour.label created = Some l -> TourEdit.label edited = Some l ->
         validate strip (TourCreation created) = [] ->
         validate strip (TourEdition edited) = [] ->
         In l ["Recommended"; "Popular"; "Best Value"; "None"]).
Proof.
  assert (Hc : forall data, validate strip (TourCreation data) = [] ->
     exists s, Tour.label data = Some s
       /\ In s ["Recommended"; "Popular"; "Best Value"; "Best seller"; "None"]).
  { intros data H. apply validate_nil in H. destruct H as [H _]. cbn [fields] in H.
    unfold Tour.tourObject in H. member H [Key "label"].
    apply z_enum_passes in Hmember. exact Hmember. }
  assert (He : forall data, validate strip (TourEdition data) = [] ->
     exists s, TourEdit.label data = Some s
       /\ In s ["Recommended"; "Popular"; "Best Value"; "Best Seller"; "None"]).
  { intros data H. apply validate_nil in H. destruct H as [H _]. cbn [fields] in H.
    unfold TourEdit.tourObject in H. member H [Key "label"].
    apply z_enum_passes in Hmember. exact Hmember. }
  split; [|split].
  - intros data El H. destruct (Hc data H) as [s [Es Hin]].
    rewrite El in Es. injection Es as <-. simpl in Hin.
    repeat (destruct Hin as [Hin|Hin]; [discriminate Hin|]). exact Hin.
  - intros data El H. destruct (He data H) as [s [Es Hin]].
    rewrite El in Es. injection Es as <-. simpl in Hin.
    repeat (destruct Hin as [Hin|Hin]; [discriminate Hin|]). exact Hin.
  - intros created edited l Ec Ee H1 H2.
    destruct (Hc created H1) as [s [Es Hin]]. rewrite Ec in Es. injection Es as <-.
    destruct (He edited H2) as [s [Es Hin']]. rewrite Ee in Es. injection Es as <-.
    simpl in Hin, Hin'. simpl.
    destruct Hin as [<-|[<-|[<-|[<-|[<-|[]]]]]]; auto.
    repeat (destruct Hin' as [Hin'|Hin']; [discriminate Hin'|]). destruct Hin'.
Qed.

Lemma tour_labels_differ_witness :
  In "None" ["Recommended"; "Popular"; "Best Value"; "None"].
Proof.
  destruct (tour_labels_differ stripHtmlTags_model) as [_ [_ H]].
  apply (H sample_tour sample_tour_edit "None");
    [reflexivity | reflexivity | vm_compute; reflexivity | vm_compute; reflexivity].
Defined.

(** ** The effects on the type *)

Lemma merge_issues_nil_intro rs :
  (forall r, In r rs -> issues r = []) -> issues (merge rs) = [].
Proof.
  induction rs as [|r rs IH]; intros H; [reflexivity|].
  rewrite merge_cons. cbn [issues]. rewrite (H r (or_introl eq_refl)), IH; auto.
  intros r' Hr. apply H. right. exact Hr.
Qed.

(** The members of the object in the goal: one that is a member of the
    object in [H] too raises no issue, the others are left. *)
Ltac same_members H :=
  apply merge_issues_nil_intro;
  let r := fresh "r" in
  let Hr := fresh "Hr" in
  intros r Hr; cbn [In] in Hr;
  repeat (destruct Hr as [<- | Hr]); [.. | destruct Hr];
  try (apply (merge_issues_nil _ H); cbn [In]; tauto).

Ltac fields_only :=
  cbn -[merge z_string z_number z_enum z_array slug_field optional refine_field
        Tour.detailsObject Transfer.detailsObject].

Lemma tour_rules_after_minimum n d :
  Tour.price_rule (TourPage.set_minimumPerson n d) = Tour.price_rule d
  /\ Tour.vehicle_rule (TourPage.set_minimumPerson n d) = Tour.vehicle_rule d
  /\ (str_is (Tour.type d) "private" = true ->
      Tour.person_rule (TourPage.set_minimumPerson n d) = true).
Proof.
  repeat split. unfold Tour.person_rule. cbn [TourPage.set_minimumPerson Tour.type].
  intros ->. reflexivity.
Qed.

Lemma tour_rules_after_vehicle v seats d :
  Tour.price_rule (TourPage.set_vehicle v seats d) = Tour.price_rule d
  /\ Tour.person_rule (TourPage.set_vehicle v seats d) = Tour.person_rule d
  /\ (str_is (Tour.type d) "private" = false ->
      Tour.vehicle_rule (TourPage.set_vehicle v seats d) = true).
Proof.
  repeat split. unfold Tour.vehicle_rule. cbn [TourPage.set_vehicle Tour.type].
  intros ->. reflexivity.
Qed.

Lemma tour_type_effects_valid strip data :
  validate strip (TourCreation data) = [] ->
  validate strip (TourCreation (TourPage.type_effects data)) = [].
Proof.
  intros H. apply validates_iff in H. destruct H as [Hf Hr].
  apply validates_iff. cbn [fields refinements_hold] in *.
  unfold Tour.refinements in *. cbn [forallb holds] in *.
  apply andb_true_iff in Hr. destruct Hr as [Hprice Hr].
  apply andb_true_iff in Hr. destruct Hr as [Hperson Hr].
  apply andb_true_iff in Hr. destruct Hr as [Hvehicle _].
  unfold Tour.tourObject in Hf. unfold TourPage.type_effects.
  destruct (str_is (Tour.type data) "private") eqn:E; cbn [negb].
  - rewrite E. split.
    + unfold Tour.tourObject. fields_only. same_members Hf. reflexivity.
    + destruct (tour_rules_after_minimum (Some (Num 1)) data) as [-> [-> ->]]; auto.
      rewrite Hprice, Hvehicle. reflexivity.
  - cbn [TourPage.set_vehicle Tour.type]. rewrite E. split.
    + unfold Tour.tourObject. fields_only. same_members Hf; reflexivity.
    + destruct (tour_rules_after_vehicle (Some "") None data) as [-> [-> ->]]; auto.
      rewrite Hprice, Hperson. reflexivity.
Qed.

Lemma transfer_rules_after_minimum n d :
  str_is (Transfer.type d) "Private" = true ->
  Transfer.price_rule (TransferPage.set_minimumPerson n d) = Transfer.price_rule d
  /\ Transfer.required_rule (TransferPage.set_minimumPerson n d) = true
  /\ Transfer.person_rule (TransferPage.set_minimumPerson n d) = true
  /\ Transfer.route_rule (TransferPage.set_minimumPerson n d) = Transfer.route_rule d
  /\ Transfer.pickupLocation_rule (TransferPage.set_minimumPerson n d)
     = Transfer.pickupLocation_rule d
  /\ Transfer.pickupGuidelines_rule (TransferPage.set_minimumPerson n d)
     = Transfer.pickupGuidelines_rule d
  /\ Transfer.vehicle_rule (TransferPage.set_minimumPerson n d) = Transfer.vehicle_rule d.
Proof.
  intros E. repeat split.
  - unfold Transfer.required_rule. cbn [TransferPage.set_minimumPerson Transfer.type].
    rewrite E. reflexivity.
  - unfold Transfer.person_rule. cbn [TransferPage.set_minimumPerson Transfer.type].
    rewrite E. reflexivity.
Qed.

Lemma transfer_rules_after_vehicle d :
  str_is (Transfer.type d) "Private" = false ->
  let d' := transfer_set (Transfer.type d) (Some "") (Transfer.rating d)
              (Transfer.details d) d in
  Transfer.price_rule d' = Transfer.price_rule d
  /\ Transfer.required_rule d' = Transfer.required_rule d
  /\ Transfer.person_rule d' = Transfer.person_rule d
  /\ Transfer.route_rule d' = Transfer.route_rule d
  /\ Transfer.pickupLocation_rule d' = Transfer.pickupLocation_rule d
  /\ Transfer.pickupGuidelines_rule d' = Transfer.pickupGuidelines_rule d
  /\ Transfer.vehicle_rule d' = true.
Proof.
  intros E d'. repeat split.
  unfold Transfer.vehicle_rule, d'. cbn [transfer_set Transfer.type].
  rewrite E. reflexivity.
Qed.

Lemma transfer_type_effects_valid strip data :
  validate strip (TransferCreation data) = [] ->
  validate strip (TransferCreation (TransferPage.type_effects data)) = [].
Proof.
  intros H. apply validates_iff in H. destruct H as [Hf Hr].
  apply validates_iff. cbn [fields refinements_hold] in *.
  unfold Transfer.refinements in *. cbn [forallb holds] in *.
  repeat (let Hx := fresh "Hrule" in
          apply andb_true_iff in Hr; destruct Hr as [Hx Hr]).
  unfold Transfer.transferObject in Hf. unfold TransferPage.type_effects.
  destruct (str_is (Transfer.type data) "Private") eqn:E; cbn [negb].
  - rewrite E. split.
    + unfold Transfer.transferObject. fields_only. same_members Hf. reflexivity.
    + destruct (transfer_rules_after_minimum (Some (Num 1)) data E)
        as [-> [-> [-> [-> [-> [-> ->]]]]]].
      rewrite Hrule, Hrule2, Hrule3, Hrule4, Hrule5. reflexivity.
  - cbn [transfer_set Transfer.type]. rewrite E. split.
    + unfold Transfer.transferObject. fields_only. same_members Hf; reflexivity.
    + destruct (transfer_rules_after_vehicle data E)
        as [-> [-> [-> [-> [-> [-> ->]]]]]].
      rewrite Hrule, Hrule0, Hrule1, Hrule2, Hrule3, Hrule4. reflexivity.
Qed.

(** X14. The effects that follow the type (a tour or transfer that is not
    private loses its vehicle, a private one gets a minimum of one person)
    never invalidate a draft: if the form values validate, so do the values
    after the effects, on both creation pages. *)
Theorem type_effects_keep_validity strip :
  (forall data, validate strip (TourCreation data) = [] ->
                validate strip (TourCreation (TourPage.type_effects data)) = [])
  /\ (forall data, validate strip (TransferCreation data) = [] ->
                   validate strip (TransferCreation (TransferPage.type_effects data)) = []).
Proof.
  split; intros data H.
  - apply tour_type_effects_valid, H.
  - apply transfer_type_effects_valid, H.
Qed.

Lemma type_effects_keep_validity_witness :
  validate stripHtmlTags_model (TourCreation (TourPage.type_effects sample_tour_private))
  = []
  /\ validate stripHtmlTags_model
       (TransferCreation (TransferPage.type_effects sample_transfer)) = [].
Proof.
  destruct (type_effects_keep_validity stripHtmlTags_model) as [H1 H2]. split.
  - apply H1. vm_compute. reflexivity.
  - apply H2. vm_compute. reflexivity.
Defined.

(** ** The workflow, over all sequences of events *)

Lemma same_str_eq a b : same_str a b = true -> a = b.
Proof.
  destruct a as [x|], b as [y|]; simpl; try discriminate; auto.
  intros H. apply String.eqb_eq in H. congruence.
Qed.

Lemma same_str_refl a : same_str a a = true.
Proof. destruct a; simpl; auto using String.eqb_refl. Qed.

Lemma same_list_eq {A : Type} (eqb : A -> A -> bool) a b :
  (forall x y, eqb x y = true -> x = y) -> same_list eqb a b = true -> a = b.
Proof.
  intros He. revert b. induction a as [|x a IH]; intros [|y b]; simpl;
    try discriminate; auto.
  intros H. apply andb_true_iff in H. destruct H as [H1 H2].
  rewrite (He x y H1), (IH b H2). reflexivity.
Qed.

Lemma same_list_refl {A : Type} (eqb : A -> A -> bool) a :
  (forall x, eqb x x = true) -> same_list eqb a a = true.
Proof. intros He. induction a; simpl; rewrite ?He; auto. Qed.

Lemma same_faq_eq a b : same_faq a b = true -> a = b.
Proof.
  destruct a as [q1 a1], b as [q2 a2]. unfold same_faq. simpl.
  intros H. apply andb_true_iff in H. destruct H as [H1 H2].
  apply String.eqb_eq in H1, H2. congruence.
Qed.

Lemma same_faq_refl a : same_faq a a = true.
Proof. unfold same_faq. rewrite !String.eqb_refl. reflexivity. Qed.

Lemma same_strings_eq a b : same_list String.eqb a b = true -> a = b.
Proof. apply same_list_eq. intros x y. apply String.eqb_eq. Qed.

Lemma same_faqs_eq a b : same_list same_faq a b = true -> a = b.
Proof. apply same_list_eq, same_faq_eq. Qed.

Lemma same_num_refl a : same_num a a = true.
Proof. destruct a as [[|x]|]; simpl; auto. apply Qeq_bool_iff. reflexivity. Qed.

Lemma same_num_trans a b c :
  same_num a b = true -> same_num b c = true -> same_num a c = true.
Proof.
  destruct a as [[|x]|], b as [[|y]|], c as [[|z]|]; simpl; try discriminate; auto.
  rewrite !Qeq_bool_iff. intros H1 H2. rewrite H1. exact H2.
Qed.

Lemma same_str_trans a b c :
  same_str a b = true -> same_str b c = true -> same_str a c = true.
Proof. intros H1 H2. apply same_str_eq in H1, H2. subst. apply same_str_refl. Qed.

Lemma same_strings_trans a b c :
  same_list String.eqb a b = true -> same_list String.eqb b c = true ->
  same_list String.eqb a c = true.
Proof.
  intros H1 H2. apply same_strings_eq in H1, H2. subst.
  apply same_list_refl, String.eqb_refl.
Qed.

Lemma same_faqs_trans a b c :
  same_list same_faq a b = true -> same_list same_faq b c = true ->
  same_list same_faq a c = true.
Proof.
  intros H1 H2. apply same_faqs_eq in H1, H2. subst.
  apply same_list_refl, same_faq_refl.
Qed.

Ltac split_deps H :=
  repeat (let Hx := fresh "Hdep" in
          apply andb_true_iff in H; destruct H as [H Hx]).

Ltac join_deps := repeat (apply andb_true_iff; split).

Lemma tour_same_deps_refl a : TourForm.same_deps a a = true.
Proof.
  unfold TourForm.same_deps. join_deps;
    auto using same_str_refl, same_num_refl, same_faq_refl, String.eqb_refl,
      same_list_refl.
Qed.

Lemma tour_same_deps_trans a b c :
  TourForm.same_deps a b = true -> TourForm.same_deps b c = true ->
  TourForm.same_deps a c = true.
Proof.
  unfold TourForm.same_deps. intros H1 H2. split_deps H1. split_deps H2.
  join_deps;
    eauto using same_str_trans, same_num_trans, same_strings_trans, same_faqs_trans.
Qed.

Lemma transfer_same_deps_refl a : TransferForm.same_deps a a = true.
Proof.
  unfold TransferForm.same_deps. join_deps;
    auto using same_str_refl, same_num_refl, same_faq_refl, String.eqb_refl,
      same_list_refl.
Qed.

Lemma transfer_same_deps_trans a b c :
  TransferForm.same_deps a b = true -> TransferForm.same_deps b c = true ->
  TransferForm.same_deps a c = true.
Proof.
  unfold TransferForm.same_deps. intros H1 H2. split_deps H1. split_deps H2.
  join_deps;
    eauto using same_str_trans, same_num_trans, same_strings_trans, same_faqs_trans.
Qed.

(** Numbers that agree for the reset effect are told apart by no rule. *)
Lemma Qle_bool_same x y z : Qeq_bool x y = true -> Qle_bool z x = Qle_bool z y.
Proof.
  intros H. apply Qeq_bool_iff in H.
  destruct (Qle_bool z x) eqn:E1, (Qle_bool z y) eqn:E2; auto.
  - apply Qle_bool_iff in E1. rewrite H in E1. apply Qle_bool_iff in E1. congruence.
  - apply Qle_bool_iff in E2. rewrite <- H in E2. apply Qle_bool_iff in E2. congruence.
Qed.

Lemma Qle_bool_same_l x y z : Qeq_bool x y = true -> Qle_bool x z = Qle_bool y z.
Proof.
  intros H. apply Qeq_bool_iff in H.
  destruct (Qle_bool x z) eqn:E1, (Qle_bool y z) eqn:E2; auto.
  - apply Qle_bool_iff in E1. rewrite H in E1. apply Qle_bool_iff in E1. congruence.
  - apply Qle_bool_iff in E2. rewrite <- H in E2. apply Qle_bool_iff in E2. congruence.
Qed.

Lemma z_number_same checks p x y :
  same_num x y = true -> z_number checks p x = z_number checks p y.
Proof.
  destruct x as [[|x]|], y as [[|y]|]; simpl; try discriminate; auto.
  intros H. f_equal. apply map_ext. intros [lo m|hi m]; simpl.
  - rewrite (Qle_bool_same x y lo H). reflexivity.
  - rewrite (Qle_bool_same_l x y hi H). reflexivity.
Qed.

Lemma js_gt_same a b a' b' :
  same_num a a' = true -> same_num b b' = true -> js_gt a b = js_gt a' b'.
Proof.
  destruct a as [[|x]|], a' as [[|x']|]; simpl; try discriminate; auto;
    destruct b as [[|y]|], b' as [[|y']|]; simpl; try discriminate; auto.
  intros H1 H2. rewrite (Qle_bool_same_l x x' y H1), (Qle_bool_same y y' x' H2).
  reflexivity.
Qed.

Lemma js_le_same a b a' b' :
  same_num a a' = true -> same_num b b' = true -> js_le a b = js_le a' b'.
Proof.
  destruct a as [[|x]|], a' as [[|x']|]; simpl; try discriminate; auto;
    destruct b as [[|y]|], b' as [[|y']|]; simpl; try discriminate; auto.
  intros H1 H2. rewrite (Qle_bool_same_l x x' y H1), (Qle_bool_same y y' x' H2).
  reflexivity.
Qed.

Lemma optional_any_number p v :
  is_nan v = false -> issues (optional (z_number []) p v) = [].
Proof. destruct v as [[|x]|]; [discriminate | reflexivity | reflexivity]. Qed.

(** On the tour page every field but the seat capacity is a dependency of
    the reset effect: values that agree on the dependencies with values that
    validate do validate, unless their seat capacity is [NaN]. *)
Lemma tour_same_deps_valid strip a b :
  TourForm.same_deps a b = true ->
  is_nan (Tour.seatCapacity b) = false ->
  validate strip (TourCreation a) = [] ->
  validate strip (TourCreation b) = []
  /\ Tour.faq (Tour.details b) = Tour.faq (Tour.details a).
Proof.
  intros Hd Hs H. unfold TourForm.same_deps in Hd. split_deps Hd.
  apply validates_iff in H. destruct H as [Hf Hr].
  split; [|symmetry; apply same_faqs_eq; assumption].
  apply validates_iff. cbn [fields refinements_hold] in *.
  unfold Tour.refinements in *. cbn [forallb holds] in *.
  unfold Tour.price_rule, Tour.person_rule, Tour.vehicle_rule in *.
  unfold Tour.tourObject, Tour.detailsObject in *.
  rewrite <- (js_gt_same (Tour.newPrice a) (Tour.oldPrice a)) by assumption.
  rewrite <- (js_le_same (Tour.maximumPerson a) (Tour.minimumPerson a)) by assumption.
  repeat match goal with
         | Hx : same_num ?x ?y = true |- context [z_number ?c ?p ?y] =>
             rewrite <- (z_number_same c p x y Hx)
         end.
  repeat match goal with
         | Hx : same_str _ _ = true |- _ =>
             apply same_str_eq in Hx; rewrite <- ?Hx; clear Hx
         | Hx : same_list String.eqb _ _ = true |- _ =>
             apply same_strings_eq in Hx; rewrite <- ?Hx; clear Hx
         | Hx : same_list same_faq _ _ = true |- _ =>
             apply same_faqs_eq in Hx; rewrite <- ?Hx; clear Hx
         end.
  split; [|exact Hr].
  same_members Hf. apply optional_any_number, Hs.
Qed.

Lemma tour_change_promise strip data s :
  tour_promise strip s -> tour_promise strip (TourForm.field_change data s).
Proof.
  unfold tour_promise, TourForm.field_change. intros Hs.
  destruct (TourForm.same_deps (TourForm.values s) data) eqn:Ed;
    destruct (TourForm.hasValidated s) eqn:Ev; simpl; try discriminate.
  intros _ Hv. destruct (Hs eq_refl Hv) as [d0 [H1 [H2 H3]]].
  exists d0. repeat split; auto. eapply tour_same_deps_trans; eauto.
Qed.

Lemma tour_validate_promise strip s :
  tour_promise strip (TourForm.handleShowErrors strip s).
Proof.
  unfold tour_promise, TourForm.handleShowErrors, Tour.isFormValid, Tour.errors. simpl.
  intros _ Hv. exists (TourForm.values s).
  unfold validate. cbn [schema].
  destruct (issues (Tour.tourSchema strip (TourForm.values s))); [|discriminate Hv].
  split; [reflexivity|]. split; [|apply tour_same_deps_refl].
  destruct (validFaqs _); [discriminate Hv | discriminate].
Qed.

Lemma tour_step_promise strip s e :
  tour_promise strip s -> tour_promise strip (TourPage.step strip s e).
Proof.
  destruct e as [data| |]; simpl.
  - apply tour_change_promise.
  - intros _. apply tour_validate_promise.
  - intros _ H. discriminate H.
Qed.

Lemma tour_run_promise strip events : tour_promise strip (TourPage.run strip events).
Proof.
  unfold TourPage.run.
  assert (H : tour_promise strip TourPage.initial) by (intros H; discriminate H).
  revert H. generalize TourPage.initial.
  induction events as [|e events IH]; intros s H; simpl; auto.
  apply IH, tour_step_promise, H.
Qed.

Lemma validFaqs_complete faq :
  Forall (fun f => trim (question f) <> "" /\ trim (answer f) <> "") (validFaqs faq).
Proof.
  unfold validFaqs. apply Forall_forall. intros f H. apply filter_In in H.
  destruct H as [_ H]. apply andb_true_iff in H. destruct H as [H1 H2].
  apply negb_true_iff in H1, H2. apply String.eqb_neq in H1, H2. auto.
Qed.



Lemma transfer_change_promise strip data s :
  transfer_promise strip s -> transfer_promise strip (TransferForm.field_change data s).
Proof.
  unfold transfer_promise, TransferForm.field_change. intros Hs.
  destruct (TransferForm.same_deps (TransferForm.values s) data) eqn:Ed;
    destruct (TransferForm.hasValidated s) eqn:Ev; simpl; try discriminate.
  intros _ Hv. destruct (Hs eq_refl Hv) as [d0 [H1 [H2 H3]]].
  exists d0. repeat split; auto. eapply transfer_same_deps_trans; eauto.
Qed.

Lemma transfer_validate_promise strip s :
  transfer_promise strip (TransferForm.handleShowErrors strip s).
Proof.
  unfold transfer_promise, TransferForm.handleShowErrors, Transfer.isFormValid,
    Transfer.errors. simpl.
  intros _ Hv. exists (TransferForm.values s).
  unfold validate. cbn [schema].
  destruct (issues (Transfer.transferSchema strip (TransferForm.values s)));
    [|discriminate Hv].
  split; [reflexivity|]. split; [|apply transfer_same_deps_refl].
  destruct (validFaqs _); [discriminate Hv | discriminate].
Qed.

Lemma transfer_step_promise strip s e :
  transfer_promise strip s -> transfer_promise strip (TransferPage.step strip s e).
Proof.
  destruct e as [data| | |url|]; simpl.
  - apply transfer_change_promise.
  - intros _. apply transfer_validate_promise.
  - intros _ H. discriminate H.
  - intros H. unfold TransferPage.upload_succeeded.
    apply (transfer_change_promise strip
             (TransferPage.set_image (Some url) (TransferForm.values s))) in H.
    exact H.
  - intros H. exact H.
Qed.

Lemma transfer_run_promise strip events :
  transfer_promise strip (TransferPage.run strip events).
Proof.
  unfold TransferPage.run.
  assert (H : transfer_promise strip TransferPage.initial) by (intros H; discriminate H).
  revert H. generalize TransferPage.initial.
  induction events as [|e events IH]; intros s H; simpl; auto.
  apply IH, transfer_step_promise, H.
Qed.

(** The pickup texts of a transfer that validates. *)
Lemma valid_pickup strip data :
  validate strip (TransferCreation data) = [] ->
  (exists g, Transfer.pickupGuidelines (Transfer.details data) = Some g
             /\ 15 <= String.length g)
  /\ (Transfer.pickupOption (Transfer.details data) = Some "admin"
      /\ (exists l, Transfer.pickupLocation (Transfer.details data) = Some l
                    /\ 10 <= String.length l)
      \/ Transfer.pickupOption (Transfer.details data) = Some "user").
Proof.
  intros H. pose proof (rule_holds strip _ H) as Hr. cbv beta iota in Hr.
  split.
  - apply len_ge_spec.
    specialize (Hr _ (or_intror (or_intror (or_intror (or_intror (or_intror
                        (or_introl eq_refl))))))).
    cbn [holds] in Hr. unfold Transfer.pickupGuidelines_rule in Hr.
    apply andb_true_iff in Hr. tauto.
  - pose proof H as H'. apply validate_nil in H. destruct H as [H _]. cbn [fields] in H.
    unfold Transfer.transferObject in H. member H [Key "details"].
    unfold Transfer.detailsObject in Hmember. clear H.
    member Hmember (Key "pickupOption"). apply z_enum_passes in Hmember0.
    destruct Hmember0 as [s [Es [<-|[<-|[]]]]]; [left | right; exact Es].
    split; [exact Es|]. apply (pickup_location_raw_length strip data Es H').
Qed.



(** ** The edit page *)

Lemma filter_non_blank l : Forall (fun s => trim s <> "") (filter EditPage.non_blank l).
Proof.
  apply Forall_forall. intros s H. apply filter_In in H. destruct H as [_ H].
  unfold EditPage.non_blank in H. apply negb_true_iff, String.eqb_neq in H. exact H.
Qed.

(** X17. The edit page sends a request only for values that pass its schema,
    without the check of the FAQ that the creation pages make.  In the
    request the pickup locations, notes and included items have no blank
    entry and every FAQ entry has a question and an answer that are not
    blank; when every FAQ entry of the form is blank in its question or its
    answer, the request is sent with an empty FAQ list. *)
Theorem edit_request strip data :
  (forall payload,
      EditPage.handleSubmit data = Some payload ->
      validate strip (TourEdition data) = []
      /\ EditPage.packageType payload = "tour"
      /\ Forall (fun s => trim s <> "")
           (TourEdit.pickupLocations (TourEdit.details (EditPage.body payload)))
      /\ Forall (fun s => trim s <> "")
           (TourEdit.notes (TourEdit.details (EditPage.body payload)))
      /\ Forall (fun s => trim s <> "")
           (TourEdit.includes (TourEdit.details (EditPage.body payload)))
      /\ Forall (fun f => trim (question f) <> "" /\ trim (answer f) <> "")
           (TourEdit.faq (TourEdit.details (EditPage.body payload))))
  /\ (validate strip (TourEdition data) = [] ->
      (forall f, In f (TourEdit.faq (TourEdit.details data)) ->
                 trim (question f) = "" \/ trim (answer f) = "") ->
      exists payload,
        EditPage.handleSubmit data = Some payload
        /\ TourEdit.faq (TourEdit.details (EditPage.body payload)) = []).
Proof.
  unfold EditPage.handleSubmit, TourEdit.errors, validate. cbn [schema].
  split.
  - intros payload H.
    destruct (issues (TourEdit.tourSchema data)); [|discriminate H].
    injection H as <-. split; [reflexivity|]. split; [reflexivity|].
    cbn [EditPage.onSubmit EditPage.body TourEdit.details TourEdit.pickupLocations
         TourEdit.notes TourEdit.includes TourEdit.faq].
    repeat split; auto using filter_non_blank, validFaqs_complete.
  - intros H Hb. rewrite H. eexists. split; [reflexivity|].
    cbn [EditPage.onSubmit EditPage.body TourEdit.details TourEdit.faq].
    apply validFaqs_nil, Hb.
Qed.

Lemma edit_request_witness :
  exists payload,
    EditPage.handleSubmit sample_tour_edit_blank_faq = Some payload
    /\ TourEdit.faq (TourEdit.details (EditPage.body payload)) = [].
Proof.
  destruct (edit_request stripHtmlTags_model sample_tour_edit_blank_faq) as [_ H].
  apply H; [vm_compute; reflexivity|].
  intros f [<-|[]]. right. vm_compute. reflexivity.
Defined.
